(** * A shallow embedding of the ACO instruction builder (aco_builder_h.py)

    The builder is the hand-written part of the template in
    [src/amd/compiler/aco_builder_h.py]: the insertion context, the
    wave-size adapter [w64or32], the fixed-register helpers, the
    arithmetic helpers [vadd32], [vsub32], [v_mul_imm] and [v_mul24_imm],
    [as_uniform], the [reset]/[moveEnd] retargeting, and the free encoders
    of DPP controls, [ds_pattern_bitmode] and the GS [sendmsg] ids.

    Effects are modelled by a small state/error monad: the state holds the
    [Program] (its temporary-id allocator) and the [Builder] (its insertion
    target, which owns the instruction vector it inserts into); a failed
    [assert] or an [unreachable] is [None]. *)

From Stdlib Require Import ZArith NArith List Lia Bool Arith.
Import ListNotations.

(* ------------------------------------------------------------------ *)
(** ** IR data model (the parts of aco_ir.h the builder touches) *)

Inductive chip_class := GFX6 | GFX7 | GFX8 | GFX9 | GFX10 | GFX10_3.

Definition chip_rank (c : chip_class) : nat :=
  match c with
  | GFX6 => 6 | GFX7 => 7 | GFX8 => 8 | GFX9 => 9 | GFX10 => 10 | GFX10_3 => 11
  end.

(** [chip_ge c d] is [c >= d] on the ordered generation enum. *)
Definition chip_ge (c d : chip_class) : bool := Nat.leb (chip_rank d) (chip_rank c).
Definition chip_lt (c d : chip_class) : bool := negb (chip_ge c d).

Inductive RegType := sgpr | vgpr.

Definition RegType_eqb (a b : RegType) : bool :=
  match a, b with sgpr, sgpr | vgpr, vgpr => true | _, _ => false end.

(** A register class: domain, size in units (dwords, or bytes when
    sub-dword). *)
Record RegClass := mkRC { rc_type : RegType; rc_size : nat; rc_subdword : bool }.

Definition rc_bytes (rc : RegClass) : nat :=
  if rc_subdword rc then rc_size rc else 4 * rc_size rc.

Definition s1 := mkRC sgpr 1 false.
Definition s2 := mkRC sgpr 2 false.
Definition v1 := mkRC vgpr 1 false.

Record Temp := mkTemp { t_id : nat; t_rc : RegClass }.

(** [Temp()]: id 0 means "no temporary". *)
Definition Temp_none : Temp := mkTemp 0 s1.

Inductive PhysReg := m0 | vcc | exec | scc.

Inductive Operand :=
| OTemp (t : Temp) (fixed : option PhysReg)
| OConst (v : Z)
| OUndef (rc : RegClass).

Definition Operand_of_temp (t : Temp) : Operand := OTemp t None.

Definition isTemp (o : Operand) : bool :=
  match o with OTemp _ _ => true | _ => false end.
Definition isUndefined (o : Operand) : bool :=
  match o with OUndef _ => true | _ => false end.
Definition hasRegClass (o : Operand) : bool := isTemp o || isUndefined o.
Definition op_regClass (o : Operand) : RegClass :=
  match o with OTemp t _ => t_rc t | OUndef rc => rc | OConst _ => s1 end.
Definition op_type_is (o : Operand) (ty : RegType) : bool :=
  RegType_eqb (rc_type (op_regClass o)) ty.

Record Definition_ := mkDef {
  d_temp : Temp;
  d_fixed : option PhysReg;
  d_hint : option PhysReg;
  d_precise : bool;
  d_nuw : bool }.

Definition Definition_of (t : Temp) : Definition_ := mkDef t None None false false.
Definition d_regClass (d : Definition_) : RegClass := t_rc (d_temp d).
Definition d_bytes (d : Definition_) : nat := rc_bytes (d_regClass d).

Definition setFixed (d : Definition_) (r : PhysReg) : Definition_ :=
  mkDef (d_temp d) (Some r) (d_hint d) (d_precise d) (d_nuw d).
Definition setHint (d : Definition_) (r : PhysReg) : Definition_ :=
  mkDef (d_temp d) (d_fixed d) (Some r) (d_precise d) (d_nuw d).
Definition setPrecise (d : Definition_) (b : bool) : Definition_ :=
  mkDef (d_temp d) (d_fixed d) (d_hint d) b (d_nuw d).
Definition setNUW (d : Definition_) (b : bool) : Definition_ :=
  mkDef (d_temp d) (d_fixed d) (d_hint d) (d_precise d) b.

(** The opcodes the builder's hand-written helpers name. *)
Inductive aco_opcode :=
| s_cselect_b32 | s_cselect_b64 | s_cmp_lg_u32 | s_cmp_lg_u64
| s_and_b32 | s_and_b64 | s_andn2_b32 | s_andn2_b64 | s_or_b32 | s_or_b64
| s_orn2_b32 | s_orn2_b64 | s_not_b32 | s_not_b64 | s_mov_b32 | s_mov_b64
| s_wqm_b32 | s_wqm_b64 | s_and_saveexec_b32 | s_and_saveexec_b64
| s_or_saveexec_b32 | s_or_saveexec_b64 | s_xnor_b32 | s_xnor_b64
| s_xor_b32 | s_xor_b64 | s_bcnt1_i32_b32 | s_bcnt1_i32_b64
| s_bitcmp1_b32 | s_bitcmp1_b64 | s_ff1_i32_b32 | s_ff1_i32_b64
| s_flbit_i32_b32 | s_flbit_i32_b64 | s_lshl_b32 | s_lshl_b64
| s_add_u32
| p_parallelcopy | p_as_uniform
| v_lshlrev_b32 | v_mul_u32_u24 | v_mul_lo_u32
| v_add_u32 | v_add_co_u32 | v_add_co_u32_e64 | v_addc_co_u32
| v_sub_u32 | v_subrev_u32 | v_sub_co_u32 | v_subrev_co_u32
| v_sub_co_u32_e64 | v_subrev_co_u32_e64 | v_subb_co_u32 | v_subbrev_co_u32.

Definition aco_opcode_eq_dec (a b : aco_opcode) : {a = b} + {a <> b}.
Proof. decide equality. Defined.

Definition opcode_eqb (a b : aco_opcode) : bool :=
  if aco_opcode_eq_dec a b then true else false.

Inductive Format := PSEUDO | SOP1 | SOP2 | SOPC | VOP2 | VOP3.

Record Instruction := mkInstr {
  opcode : aco_opcode;
  format : list Format;
  operands : list Operand;
  definitions : list Definition_ }.

(** The part of [Program] the builder reads and writes. *)
Record Program := mkProgram {
  chip : chip_class;
  wave_size : nat;
  alloc_id : nat }.

Definition lane_mask (p : Program) : RegClass :=
  if Nat.eqb (wave_size p) 64 then s2 else s1.

(** The builder's fields; [b_instructions] is the vector it points to
    ([None] for a NULL pointer) and [b_it] the iterator, as an index. *)
Record Builder := mkBuilder {
  b_lm : RegClass;
  b_use_iterator : bool;
  b_start : bool;
  b_instructions : option (list Instruction);
  b_it : nat;
  b_precise : bool;
  b_nuw : bool }.

(** [Builder(pgm, block)] / [Builder(pgm, instrs)] / [Builder(pgm)]. *)
Definition Builder_new (p : Program) (instrs : option (list Instruction)) : Builder :=
  mkBuilder (lane_mask p) false false instrs 0 false false.

Record State := mkState { st_prog : Program; st_b : Builder }.

(* ------------------------------------------------------------------ *)
(** ** The builder monad *)

Definition M (A : Type) := State -> option (A * State).

Definition ret {A} (a : A) : M A := fun s => Some (a, s).
Definition bind {A B} (m : M A) (f : A -> M B) : M B :=
  fun s => match m s with None => None | Some (a, s') => f a s' end.
Definition fault {A} : M A := fun _ => None.
Definition assert (b : bool) : M unit := if b then ret tt else fault.
Definition get_prog : M Program := fun s => Some (st_prog s, s).
Definition get_builder : M Builder := fun s => Some (st_b s, s).
Definition put_builder (b : Builder) : M unit :=
  fun s => Some (tt, mkState (st_prog s) b).

Notation "x <- m ;; k" := (bind m (fun x => k))
  (at level 61, m at next level, right associativity).
Notation "m ;;; k" := (bind m (fun _ => k))
  (at level 61, right associativity).

(** [Program::allocateTmp]. *)
Definition allocateTmp (rc : RegClass) : M Temp :=
  fun s => let p := st_prog s in
    Some (mkTemp (alloc_id p) rc,
          mkState (mkProgram (chip p) (wave_size p) (S (alloc_id p))) (st_b s)).

(** [Builder::reset(instrs, instr_it)]: switch to cursor insertion. *)
Definition reset_cursor (l : list Instruction) (i : nat) : M unit :=
  b <- get_builder ;;
  put_builder (mkBuilder (b_lm b) true false (Some l) i (b_precise b) (b_nuw b)).

(** [Builder::insert]: [emplace(it, instr)] puts it before position [it]
    and [it = std::next(it)] steps past it. *)
Definition insert (instr : Instruction) : M Instruction :=
  b <- get_builder ;;
  match b_instructions b with
  | None => ret instr
  | Some l =>
      if b_use_iterator b then
        put_builder (mkBuilder (b_lm b) (b_use_iterator b) (b_start b)
                       (Some (firstn (b_it b) l ++ instr :: skipn (b_it b) l))
                       (S (b_it b)) (b_precise b) (b_nuw b)) ;;; ret instr
      else if negb (b_start b) then
        put_builder (mkBuilder (b_lm b) (b_use_iterator b) (b_start b)
                       (Some (l ++ [instr])) (b_it b) (b_precise b) (b_nuw b)) ;;; ret instr
      else
        put_builder (mkBuilder (b_lm b) (b_use_iterator b) (b_start b)
                       (Some (instr :: l)) (b_it b) (b_precise b) (b_nuw b)) ;;; ret instr
  end.

Definition tmp (rc : RegClass) : M Temp := allocateTmp rc.
Definition def (rc : RegClass) : M Definition_ :=
  t <- allocateTmp rc ;; ret (Definition_of t).

(** The generated format constructors ([vop2], [vop3], [pseudo], ...):
    copy the definitions with the builder's precise/nuw flags, copy the
    operands, insert. *)
Definition create (fmt : list Format) (op : aco_opcode)
    (defs : list Definition_) (ops : list Operand) : M Instruction :=
  b <- get_builder ;;
  insert (mkInstr op fmt ops
            (map (fun d => setNUW (setPrecise d (b_precise b)) (b_nuw b)) defs)).

Definition vop2 := create [VOP2].
Definition vop3 := create [VOP3].
Definition pseudo := create [PSEUDO].
Definition sop1 := create [SOP1].

(** [Result] to [Temp] / [Operand]: the first definition's temporary. *)
Definition res_temp (i : Instruction) : Temp :=
  match definitions i with d :: _ => d_temp d | [] => Temp_none end.
Definition res_op (i : Instruction) : Operand := Operand_of_temp (res_temp i).

Definition copy (dst : Definition_) (op : Operand) : M Instruction :=
  pseudo p_parallelcopy [dst] [op].

(* ------------------------------------------------------------------ *)
(** ** [w64or32]: the wave-size adapter *)

(** [enum WaveSpecificOpcode]: each enumerator is the value of the 64-bit
    opcode, so a value of that type is an [aco_opcode] value. *)
Definition WaveSpecificOpcode := aco_opcode.
Definition s_cselect : WaveSpecificOpcode := s_cselect_b64.
Definition s_cmp_lg : WaveSpecificOpcode := s_cmp_lg_u64.
Definition s_and : WaveSpecificOpcode := s_and_b64.
Definition s_andn2 : WaveSpecificOpcode := s_andn2_b64.
Definition s_or : WaveSpecificOpcode := s_or_b64.
Definition s_orn2 : WaveSpecificOpcode := s_orn2_b64.
Definition s_not : WaveSpecificOpcode := s_not_b64.
Definition s_mov : WaveSpecificOpcode := s_mov_b64.
Definition s_wqm : WaveSpecificOpcode := s_wqm_b64.
Definition s_and_saveexec : WaveSpecificOpcode := s_and_saveexec_b64.
Definition s_or_saveexec : WaveSpecificOpcode := s_or_saveexec_b64.
Definition s_xnor : WaveSpecificOpcode := s_xnor_b64.
Definition s_xor : WaveSpecificOpcode := s_xor_b64.
Definition s_bcnt1_i32 : WaveSpecificOpcode := s_bcnt1_i32_b64.
Definition s_bitcmp1 : WaveSpecificOpcode := s_bitcmp1_b64.
Definition s_ff1_i32 : WaveSpecificOpcode := s_ff1_i32_b64.
Definition s_flbit_i32 : WaveSpecificOpcode := s_flbit_i32_b64.
Definition s_lshl : WaveSpecificOpcode := s_lshl_b64.

Definition WaveSpecificOpcodes : list WaveSpecificOpcode :=
  [s_cselect; s_cmp_lg; s_and; s_andn2; s_or; s_orn2; s_not; s_mov; s_wqm;
   s_and_saveexec; s_or_saveexec; s_xnor; s_xor; s_bcnt1_i32; s_bitcmp1;
   s_ff1_i32; s_flbit_i32; s_lshl].

(** [Builder::w64or32]; [None] is [unreachable(...)]. *)
Definition w64or32 (wave : nat) (opcode : WaveSpecificOpcode) : option aco_opcode :=
  if Nat.eqb wave 64 then Some opcode else
  match opcode with
  | s_cselect_b64 => Some s_cselect_b32
  | s_cmp_lg_u64 => Some s_cmp_lg_u32
  | s_and_b64 => Some s_and_b32
  | s_andn2_b64 => Some s_andn2_b32
  | s_or_b64 => Some s_or_b32
  | s_orn2_b64 => Some s_orn2_b32
  | s_not_b64 => Some s_not_b32
  | s_mov_b64 => Some s_mov_b32
  | s_wqm_b64 => Some s_wqm_b32
  | s_and_saveexec_b64 => Some s_and_saveexec_b32
  | s_or_saveexec_b64 => Some s_or_saveexec_b32
  | s_xnor_b64 => Some s_xnor_b32
  | s_xor_b64 => Some s_xor_b32
  | s_bcnt1_i32_b64 => Some s_bcnt1_i32_b32
  | s_bitcmp1_b64 => Some s_bitcmp1_b32
  | s_ff1_i32_b64 => Some s_ff1_i32_b32
  | s_flbit_i32_b64 => Some s_flbit_i32_b32
  | s_lshl_b64 => Some s_lshl_b32
  | _ => None
  end.

(** The convenience overload [sop1(WaveSpecificOpcode, ...)]. *)
Definition sop1_w (opcode : WaveSpecificOpcode) (defs : list Definition_)
    (ops : list Operand) : M Instruction :=
  p <- get_prog ;;
  match w64or32 (wave_size p) opcode with
  | Some op => sop1 op defs ops
  | None => fault
  end.

(* ------------------------------------------------------------------ *)
(** ** Fixed and hinted registers: the [% for fixed in ['m0', 'vcc',
    'exec', 'scc']] block *)

(** [% if fixed == 'vcc' or fixed == 'exec']: the two constrained ones. *)
Definition constrained (r : PhysReg) : bool :=
  match r with vcc | exec => true | _ => false end.

Definition fixed_rc_ok (rc : RegClass) : bool :=
  RegType_eqb (rc_type rc) sgpr && Nat.leb (rc_bytes rc) 8.

(** [Operand ${fixed}(Temp tmp)] *)
Definition fixed_op (r : PhysReg) (t : Temp) : M Operand :=
  (if constrained r then assert (fixed_rc_ok (t_rc t)) else ret tt) ;;;
  ret (OTemp t (Some r)).

(** [Definition ${fixed}(Definition def)] *)
Definition fixed_def (r : PhysReg) (d : Definition_) : M Definition_ :=
  (if constrained r then assert (fixed_rc_ok (d_regClass d)) else ret tt) ;;;
  ret (setFixed d r).

(** [Definition hint_${fixed}(Definition def)] *)
Definition hint_def (r : PhysReg) (d : Definition_) : M Definition_ :=
  (if constrained r then assert (fixed_rc_ok (d_regClass d)) else ret tt) ;;;
  ret (setHint d r).

(** [Definition hint_${fixed}(RegClass rc)] *)
Definition hint_rc (r : PhysReg) (rc : RegClass) : M Definition_ :=
  d <- def rc ;; hint_def r d.

Definition hint_vcc := hint_def vcc.

(* ------------------------------------------------------------------ *)
(** ** [vadd32] and [vsub32] *)

(** [Op(Operand(s2))]: the default, undefined carry-in / borrow. *)
Definition undef_s2 : Operand := OUndef s2.

Definition vadd32 (dst : Definition_) (a b : Operand) (carry_out : bool)
    (carry_in : Operand) (post_ra : bool) : M Instruction :=
  let '(a, b) := if negb (isTemp b) || negb (op_type_is b vgpr) then (b, a) else (a, b) in
  b <- (if negb post_ra && (negb (hasRegClass b) || op_type_is b sgpr)
        then d <- def v1 ;; r <- copy d b ;; ret (res_op r)
        else ret b) ;;
  p <- get_prog ;;
  bl <- get_builder ;;
  let lm := b_lm bl in
  if negb (isUndefined carry_in) then
    d <- def lm ;; c <- hint_vcc d ;;
    vop2 v_addc_co_u32 [dst; c] [a; b; carry_in]
  else if chip_ge (chip p) GFX10 && carry_out then
    d <- def lm ;; vop3 v_add_co_u32_e64 [dst; d] [a; b]
  else if chip_lt (chip p) GFX9 || carry_out then
    d <- def lm ;; c <- hint_vcc d ;;
    vop2 v_add_co_u32 [dst; c] [a; b]
  else
    vop2 v_add_u32 [dst] [a; b].

(** The opcode choice of [vsub32] (before the GFX10 VOP3 rewrite). *)
Definition vsub32_opcode (carry_out borrow_undef reverse : bool) : aco_opcode :=
  if carry_out then
    if borrow_undef then (if reverse then v_subrev_co_u32 else v_sub_co_u32)
    else (if reverse then v_subbrev_co_u32 else v_subb_co_u32)
  else (if reverse then v_subrev_u32 else v_sub_u32).

(** The GFX10 rewrite to the VOP3 encoding: [(vop3, op)]. *)
Definition vsub32_encoding (c : chip_class) (op : aco_opcode) : bool * aco_opcode :=
  if chip_ge c GFX10 && opcode_eqb op v_subrev_co_u32 then (true, v_subrev_co_u32_e64)
  else if chip_ge c GFX10 && opcode_eqb op v_sub_co_u32 then (true, v_sub_co_u32_e64)
  else (false, op).

Definition vsub32 (dst : Definition_) (a b : Operand) (carry_out : bool)
    (borrow : Operand) : M Instruction :=
  p <- get_prog ;;
  let carry_out := if negb (isUndefined borrow) || chip_lt (chip p) GFX9
                   then true else carry_out in
  let reverse := negb (isTemp b) || negb (op_type_is b vgpr) in
  let '(a, b) := if reverse then (b, a) else (a, b) in
  b <- (if negb (hasRegClass b) || op_type_is b sgpr
        then d <- def v1 ;; r <- copy d b ;; ret (res_op r)
        else ret b) ;;
  carry <- (if carry_out then t <- tmp s2 ;; ret (Some t) else ret None) ;;
  let op := vsub32_opcode carry_out (isUndefined borrow) reverse in
  let '(is_vop3, op) := vsub32_encoding (chip p) op in
  let ops := [a; b] ++ (if isUndefined borrow then [] else [borrow]) in
  let defs := [dst] ++ match carry with
                       | Some t => [setHint (Definition_of t) vcc]
                       | None => []
                       end in
  insert (mkInstr op (if is_vop3 then [VOP3] else [VOP2]) ops defs).

(* ------------------------------------------------------------------ *)
(** ** Bit helpers of util/ used by [v_mul_imm] (32-bit unsigned) *)

Open Scope Z_scope.

Definition u32 (z : Z) : Z := z mod 2 ^ 32.

(** [ffs]: 1-based index of the lowest set bit, 0 when there is none. *)
Fixpoint ffs_scan (n : nat) (i : nat) (x : Z) : Z :=
  match n with
  | O => 0
  | S n' => if Z.testbit x (Z.of_nat i) then Z.of_nat i + 1 else ffs_scan n' (S i) x
  end.
Definition ffs (x : Z) : Z := ffs_scan 32 0 x.

(** [util_bitcount] *)
Definition util_bitcount (x : Z) : nat :=
  fold_right (fun i acc => (if Z.testbit x (Z.of_nat i) then 1 else 0) + acc)%nat
             0%nat (seq 0 32).

(** [util_is_power_of_two_or_zero(v)]: [(v & (v - 1)) == 0]. *)
Definition util_is_power_of_two_or_zero (v : Z) : bool :=
  Z.eqb (Z.land v (u32 (v - 1))) 0.

(** [util_is_power_of_two_nonzero(v)]: [v != 0 && (v & (v - 1)) == 0]. *)
Definition util_is_power_of_two_nonzero (v : Z) : bool :=
  negb (Z.eqb v 0) && Z.eqb (Z.land v (u32 (v - 1))) 0.

(** [u_bit_scan(&mask)]: returns [ffs(mask) - 1] and clears that bit. *)
Definition u_bit_scan (mask : Z) : Z * Z :=
  let i := ffs mask - 1 in (i, Z.lxor mask (Z.shiftl 1 i)).

(** Modelled from the spec: whether [Operand(uint32_t v)] needs a literal
    slot, i.e. [v] is not an inline constant (aco_ir.h is not among the
    sources).  The inline constants are the integers -16..64 and the
    floats +-0.5, +-1.0, +-2.0, +-4.0. *)
Definition Operand_u32_isLiteral (v : Z) : bool :=
  negb (Z.leb v 64 || Z.leb 4294967280 v
        || Z.eqb v 1056964608 || Z.eqb v 3204448256
        || Z.eqb v 1065353216 || Z.eqb v 3212836864
        || Z.eqb v 1073741824 || Z.eqb v 3221225472
        || Z.eqb v 1082130432 || Z.eqb v 3229614080).

(* ------------------------------------------------------------------ *)
(** ** [v_mul_imm] *)

(** The [while (imm)] loop of the shift-and-add decomposition.  The fuel
    bounds the number of iterations: each one clears one of the at most 32
    bits of [imm], so 32 is enough (see [mul_loop_runs]). *)
Fixpoint mul_loop (fuel : nat) (dst : Definition_) (t : Temp) (imm : Z)
    (res : option Instruction) (cur : Temp) : M (option Instruction) :=
  match fuel with
  | O => if Z.eqb imm 0 then ret res else fault
  | S fuel =>
    if Z.eqb imm 0 then ret res else
    let '(shift, imm) := u_bit_scan imm in
    tmp_dst <- (if negb (Z.eqb imm 0) then def v1 else ret dst) ;;
    if negb (Z.eqb shift 0) && negb (Nat.eqb (t_id cur) 0) then
      sh <- (d <- def v1 ;; vop2 v_lshlrev_b32 [d] [OConst shift; Operand_of_temp t]) ;;
      r <- vadd32 tmp_dst (res_op sh) (Operand_of_temp cur) false undef_s2 false ;;
      mul_loop fuel dst t imm (Some r) (d_temp tmp_dst)
    else if negb (Z.eqb shift 0) then
      r <- vop2 v_lshlrev_b32 [tmp_dst] [OConst shift; Operand_of_temp t] ;;
      mul_loop fuel dst t imm (Some r) (d_temp tmp_dst)
    else if negb (Nat.eqb (t_id cur) 0) then
      r <- vadd32 tmp_dst (Operand_of_temp t) (Operand_of_temp cur) false undef_s2 false ;;
      mul_loop fuel dst t imm (Some r) (d_temp tmp_dst)
    else
      (* [tmp_dst = Definition(tmp)]; [cur = tmp_dst.getTemp()] *)
      mul_loop fuel dst t imm res t
  end.

(** [mul_cost] of [Builder::v_mul_imm]: the estimated cost of a
    [v_mul_lo_u32] by [imm]. *)
Definition mul_cost (c : chip_class) (imm : Z) : nat :=
  if chip_ge c GFX10 then 1%nat
  else (4 + (if Operand_u32_isLiteral imm then 1 else 0))%nat.

(** [Builder::v_mul_imm]; the result is [None] for the [Result res(NULL)]
    that the loop would return if it set nothing. *)
Definition v_mul_imm (dst : Definition_) (t : Temp) (imm : Z) (bits24 : bool)
    : M (option Instruction) :=
  assert (RegType_eqb (rc_type (t_rc t)) vgpr) ;;;
  p <- get_prog ;;
  let has_lshl_add := chip_ge (chip p) GFX9 in
  let mul_cost : nat := mul_cost (chip p) imm in
  if Z.eqb imm 0 then
    r <- copy dst (OConst 0) ;; ret (Some r)
  else if Z.eqb imm 1 then
    r <- copy dst (Operand_of_temp t) ;; ret (Some r)
  else if util_is_power_of_two_or_zero imm then
    r <- vop2 v_lshlrev_b32 [dst] [OConst (ffs imm - 1); Operand_of_temp t] ;; ret (Some r)
  else if bits24 then
    r <- vop2 v_mul_u32_u24 [dst] [OConst imm; Operand_of_temp t] ;; ret (Some r)
  else if util_is_power_of_two_nonzero (u32 (imm - 1)) then
    sh <- (d <- def v1 ;;
           vop2 v_lshlrev_b32 [d] [OConst (ffs (u32 (imm - 1)) - 1); Operand_of_temp t]) ;;
    r <- vadd32 dst (res_op sh) (Operand_of_temp t) false undef_s2 false ;; ret (Some r)
  else if Nat.ltb 2 mul_cost && util_is_power_of_two_nonzero (u32 (imm + 1)) then
    sh <- (d <- def v1 ;;
           vop2 v_lshlrev_b32 [d] [OConst (ffs (u32 (imm + 1)) - 1); Operand_of_temp t]) ;;
    r <- vsub32 dst (res_op sh) (Operand_of_temp t) false undef_s2 ;; ret (Some r)
  else
    let instrs_required : nat :=
      if has_lshl_add then util_bitcount imm
      else ((util_bitcount imm - Z.to_nat (Z.land imm 1))      (* shifts *)
            + (util_bitcount imm - 1))%nat                      (* additions *) in
    if Nat.ltb instrs_required mul_cost then
      mul_loop 32 dst t imm None Temp_none
    else
      d <- def s1 ;;
      imm_tmp <- copy d (OConst imm) ;;
      r <- vop3 v_mul_lo_u32 [dst] [res_op imm_tmp; Operand_of_temp t] ;;
      ret (Some r).

(* ------------------------------------------------------------------ *)
(** ** Per-lane value semantics of the emitted opcodes

    One lane of the vector registers: a temporary holds a 32-bit value, a
    carry/borrow a bit.  This is the ISA meaning of the opcodes (not part of
    the builder), used to state what an emitted sequence computes. *)

Definition env := nat -> Z.

Definition upd (e : env) (x : nat) (v : Z) : env :=
  fun y => if Nat.eqb y x then v else e y.

Definition op_val (e : env) (o : Operand) : Z :=
  match o with OTemp t _ => e (t_id t) | OConst v => v | OUndef _ => 0 end.

Definition borrow_of (x : Z) : Z := if Z.ltb x 0 then 1 else 0.

Definition instr_results (i : Instruction) (e : env) : list Z :=
  let x k := op_val e (nth k (operands i) (OUndef s1)) in
  match opcode i with
  | p_parallelcopy => [x 0%nat]
  | v_lshlrev_b32 => [u32 (Z.shiftl (x 1%nat) (Z.land (x 0%nat) 31))]
  | v_mul_u32_u24 => [u32 (Z.land (x 0%nat) 16777215 * Z.land (x 1%nat) 16777215)]
  | v_mul_lo_u32 => [u32 (x 0%nat * x 1%nat)]
  | v_add_u32 | v_add_co_u32 | v_add_co_u32_e64 =>
      [u32 (x 0%nat + x 1%nat); (x 0%nat + x 1%nat) / 2 ^ 32]
  | v_addc_co_u32 =>
      [u32 (x 0%nat + x 1%nat + x 2%nat); (x 0%nat + x 1%nat + x 2%nat) / 2 ^ 32]
  | v_sub_u32 | v_sub_co_u32 | v_sub_co_u32_e64 =>
      [u32 (x 0%nat - x 1%nat); borrow_of (x 0%nat - x 1%nat)]
  | v_subrev_u32 | v_subrev_co_u32 | v_subrev_co_u32_e64 =>
      [u32 (x 1%nat - x 0%nat); borrow_of (x 1%nat - x 0%nat)]
  | v_subb_co_u32 =>
      [u32 (x 0%nat - x 1%nat - x 2%nat); borrow_of (x 0%nat - x 1%nat - x 2%nat)]
  | v_subbrev_co_u32 =>
      [u32 (x 1%nat - x 0%nat - x 2%nat); borrow_of (x 1%nat - x 0%nat - x 2%nat)]
  | _ => []
  end.

(** Run one instruction: read all operands, then write the definitions. *)
Definition exec_instr (i : Instruction) (e : env) : env :=
  fold_left (fun e' dv => upd e' (t_id (d_temp (fst dv))) (snd dv))
            (combine (definitions i) (instr_results i e)) e.

Definition exec_seq (l : list Instruction) (e : env) : env :=
  fold_left (fun e' i => exec_instr i e') l e.

(** The ids an instruction writes. *)
Definition writes (i : Instruction) : list nat :=
  map (fun d => t_id (d_temp d)) (definitions i).

(** Run a builder call on a fresh end-of-block builder over an empty block. *)
Definition run_end {A} (m : M A) (p : Program) : option (A * State) :=
  m (mkState p (Builder_new p (Some []))).

Definition emitted (r : option (option Instruction * State)) : list Instruction :=
  match r with
  | Some (_, s) => match b_instructions (st_b s) with Some l => l | None => [] end
  | None => []
  end.

(** The parts of a state a builder call leaves alone: the chip class and
    the lane mask. *)
Definition same_target (s s' : State) : Prop :=
  chip (st_prog s') = chip (st_prog s) /\ b_lm (st_b s') = b_lm (st_b s).

(** Successive [insert] calls, one per instruction of [xs], in order. *)
Fixpoint insert_all (xs : list Instruction) : M unit :=
  match xs with
  | [] => ret tt
  | x :: xs => insert x ;;; insert_all xs
  end.

(* ------------------------------------------------------------------ *)
(** ** The free-standing encoders at the top of the header

    [unsigned] arguments are natural numbers ([N]); every value an encoder
    accepts stays far below [2^32], so no wrap-around occurs.  A failed
    [assert] is [None]. *)

Open Scope N_scope.

(** [enum dpp_ctrl] *)
Definition _dpp_quad_perm : N := 0x000.
Definition _dpp_row_sl : N := 0x100.
Definition _dpp_row_sr : N := 0x110.
Definition _dpp_row_rr : N := 0x120.
Definition dpp_wf_sl1 : N := 0x130.
Definition dpp_wf_rl1 : N := 0x134.
Definition dpp_wf_sr1 : N := 0x138.
Definition dpp_wf_rr1 : N := 0x13C.
Definition dpp_row_mirror : N := 0x140.
Definition dpp_row_half_mirror : N := 0x141.
Definition dpp_row_bcast15 : N := 0x142.
Definition dpp_row_bcast31 : N := 0x143.

(** The named [dpp_ctrl] enumerators (those without a leading underscore). *)
Definition dpp_named_ctrls : list N :=
  [dpp_wf_sl1; dpp_wf_rl1; dpp_wf_sr1; dpp_wf_rr1; dpp_row_mirror;
   dpp_row_half_mirror; dpp_row_bcast15; dpp_row_bcast31].

Definition dpp_quad_perm (lane0 lane1 lane2 lane3 : N) : option N :=
  if (lane0 <? 4) && (lane1 <? 4) && (lane2 <? 4) && (lane3 <? 4) then
    Some (N.lor (N.lor (N.lor lane0 (N.shiftl lane1 2)) (N.shiftl lane2 4)) (N.shiftl lane3 6))
  else None.

Definition dpp_row_sl (amount : N) : option N :=
  if (0 <? amount) && (amount <? 16) then Some (N.lor _dpp_row_sl amount) else None.

Definition dpp_row_sr (amount : N) : option N :=
  if (0 <? amount) && (amount <? 16) then Some (N.lor _dpp_row_sr amount) else None.

Definition dpp_row_rr (amount : N) : option N :=
  if (0 <? amount) && (amount <? 16) then Some (N.lor _dpp_row_rr amount) else None.

(** Which [dpp_ctrl] encoder is called, with its arguments. *)
Inductive dpp_call :=
| CallQuadPerm (lane0 lane1 lane2 lane3 : N)
| CallRowSl (amount : N)
| CallRowSr (amount : N)
| CallRowRr (amount : N).

Definition dpp_encode (c : dpp_call) : option N :=
  match c with
  | CallQuadPerm l0 l1 l2 l3 => dpp_quad_perm l0 l1 l2 l3
  | CallRowSl a => dpp_row_sl a
  | CallRowSr a => dpp_row_sr a
  | CallRowRr a => dpp_row_rr a
  end.

Definition ds_pattern_bitmode (and_mask or_mask xor_mask : N) : option N :=
  if (and_mask <? 32) && (or_mask <? 32) && (xor_mask <? 32) then
    Some (N.lor (N.lor and_mask (N.shiftl or_mask 5)) (N.shiftl xor_mask 10))
  else None.

(** [enum sendmsg] (the values the encoders use) *)
Definition _sendmsg_gs : N := 2.
Definition _sendmsg_gs_done : N := 3.
Definition sendmsg_id_mask : N := 0xf.

(** [bool] operands of [<<] are promoted to [0] or [1]. *)
Definition sendmsg_gs (cut emit : bool) (stream : N) : option N :=
  if stream <? 4 then
    Some (N.lor (N.lor (N.lor _sendmsg_gs (N.shiftl (N.b2n cut) 4)) (N.shiftl (N.b2n emit) 5))
                (N.shiftl stream 8))
  else None.

Definition sendmsg_gs_done (cut emit : bool) (stream : N) : option N :=
  if stream <? 4 then
    Some (N.lor (N.lor (N.lor _sendmsg_gs_done (N.shiftl (N.b2n cut) 4)) (N.shiftl (N.b2n emit) 5))
                (N.shiftl stream 8))
  else None.

Close Scope N_scope.

(* ------------------------------------------------------------------ *)
(** ** Retargeting the builder, [as_uniform], [v_mul24_imm] *)

(** [Builder::reset()]: no target, so inserts are dropped. *)
Definition reset_null : M unit :=
  b <- get_builder ;;
  put_builder (mkBuilder (b_lm b) false false None (b_it b) (b_precise b) (b_nuw b)).

(** [Builder::reset(block)] / [Builder::reset(instrs)]. *)
Definition reset_instrs (l : list Instruction) : M unit :=
  b <- get_builder ;;
  put_builder (mkBuilder (b_lm b) false false (Some l) (b_it b) (b_precise b) (b_nuw b)).

(** [Builder::moveEnd(block)]: only the target vector changes. *)
Definition moveEnd (l : list Instruction) : M unit :=
  b <- get_builder ;;
  put_builder (mkBuilder (b_lm b) (b_use_iterator b) (b_start b) (Some l) (b_it b)
                         (b_precise b) (b_nuw b)).

(** [Operand::size()]: the size in dwords. *)
Definition Operand_size (o : Operand) : nat := (rc_bytes (op_regClass o) + 3) / 4.

(** [Operand::getTemp()] *)
Definition getTemp (o : Operand) : Temp :=
  match o with OTemp t _ => t | _ => Temp_none end.

(** [Builder::as_uniform] *)
Definition as_uniform (op : Operand) : M Temp :=
  assert (isTemp op) ;;;
  if RegType_eqb (rc_type (t_rc (getTemp op))) vgpr then
    d <- def (mkRC sgpr (Operand_size op) false) ;;
    r <- pseudo p_as_uniform [d] [op] ;;
    ret (res_temp r)
  else ret (getTemp op).

(** [Builder::v_mul24_imm] *)
Definition v_mul24_imm (dst : Definition_) (t : Temp) (imm : Z) : M (option Instruction) :=
  v_mul_imm dst t imm true.

(** An operand reads no temporary numbered [n] or above. *)
Definition op_below (n : nat) (o : Operand) : Prop :=
  match o with OTemp t _ => (t_id t < n)%nat | _ => True end.

(* ------------------------------------------------------------------ *)
(** ** Opcode classes used in the statements *)

Definition is_add_op (op : aco_opcode) : bool :=
  match op with
  | v_add_u32 | v_add_co_u32 | v_add_co_u32_e64 | v_addc_co_u32 => true
  | _ => false
  end.

Definition is_sub_op (op : aco_opcode) : bool :=
  match op with
  | v_sub_u32 | v_sub_co_u32 | v_sub_co_u32_e64 | v_subb_co_u32 => true
  | _ => false
  end.


(* ------------------------------------------------------------------ *)
(** ** The costs of [v_mul_imm] in the words of the spec

    Following the spec's description, to be compared with the
    [instrs_required] and [mul_cost] of [Builder::v_mul_imm]: the
    decomposition costs one unit per set bit where a fused shift-and-add
    exists (GFX9 on), otherwise one shift per set bit above bit 0 plus one
    add per set bit but the first; a multiply costs 1 on the newest tier
    (GFX10 on), otherwise 4, plus 1 when [imm] needs a literal slot. *)

Definition popcount (x : Z) : nat :=
  length (filter (fun i => Z.testbit x (Z.of_nat i)) (seq 0 32)).

Definition claim_decomposition_cost (c : chip_class) (imm : Z) : nat :=
  if chip_ge c GFX9 then popcount imm
  else ((popcount imm - (if Z.testbit imm 0 then 1 else 0)) + (popcount imm - 1))%nat.

Definition claim_multiply_cost (c : chip_class) (imm : Z) : nat :=
  if chip_ge c GFX10 then 1%nat
  else (4 + (if Operand_u32_isLiteral imm then 1 else 0))%nat.

(* ================================================================== *)
(** * Proofs *)

(** ** Generic facts on the semantics *)

Lemma exec_seq_app (l1 l2 : list Instruction) (e : env) :
  exec_seq (l1 ++ l2) e = exec_seq l2 (exec_seq l1 e).
Proof. unfold exec_seq. apply fold_left_app. Qed.

Lemma exec_seq_snoc (l : list Instruction) (i : Instruction) (e : env) :
  exec_seq (l ++ [i]) e = exec_instr i (exec_seq l e).
Proof. rewrite exec_seq_app. reflexivity. Qed.

Lemma fold_upd_notin (ds : list Definition_) (vs : list Z) (e : env) (x : nat) :
  ~ In x (map (fun d => t_id (d_temp d)) ds) ->
  fold_left (fun e' dv => upd e' (t_id (d_temp (fst dv))) (snd dv)) (combine ds vs) e x
  = e x.
Proof.
  revert vs e. induction ds as [|d ds IH]; intros vs e Hn; [reflexivity|].
  destruct vs as [|v vs]; [reflexivity|]. simpl in *.
  rewrite IH by tauto. unfold upd.
  destruct (Nat.eqb_spec x (t_id (d_temp d))); [exfalso; auto | reflexivity].
Qed.

Lemma exec_instr_notin (i : Instruction) (e : env) (x : nat) :
  ~ In x (writes i) -> exec_instr i e x = e x.
Proof. apply fold_upd_notin. Qed.

(** The first definition receives the first result, when no later
    definition writes the same id. *)
Lemma exec_instr_first (i : Instruction) (e : env) (x : nat) (xs : list nat)
    (v : Z) (vs : list Z) :
  writes i = x :: xs -> instr_results i e = v :: vs -> ~ In x xs ->
  exec_instr i e x = v.
Proof.
  intros Hd Hv Hn. unfold exec_instr, writes in *. rewrite Hv.
  destruct (definitions i) as [|d ds]; [discriminate|]. simpl in Hd |- *.
  injection Hd as <- <-.
  rewrite fold_upd_notin by exact Hn. unfold upd. rewrite Nat.eqb_refl. reflexivity.
Qed.

(** ** Builder steps on an end-of-sequence target *)

Section EndMode.
Variables (c : chip_class) (w : nat) (lm : RegClass) (it : nat) (pr nu : bool).
Hypothesis Hlm : fixed_rc_ok lm = true.

(** A builder appending to the end of [L], with [n] the next free id. *)
Definition st (n : nat) (L : list Instruction) : State :=
  mkState (mkProgram c w n) (mkBuilder lm false false (Some L) it pr nu).

Definition flags (d : Definition_) : Definition_ := setNUW (setPrecise d pr) nu.

Lemma create_st fmt op defs ops n L :
  create fmt op defs ops (st n L)
  = Some (mkInstr op fmt ops (map flags defs),
          st n (L ++ [mkInstr op fmt ops (map flags defs)])).
Proof. reflexivity. Qed.

Lemma def_st rc n L :
  def rc (st n L) = Some (Definition_of (mkTemp n rc), st (S n) L).
Proof. reflexivity. Qed.

Lemma shl_st (d : Definition_) (k : Z) (t : Temp) (n : nat) (L : list Instruction) :
  exists i,
    vop2 v_lshlrev_b32 [d] [OConst k; Operand_of_temp t] (st n L) = Some (i, st n (L ++ [i])) /\
    opcode i = v_lshlrev_b32 /\ writes i = [t_id (d_temp d)] /\
    res_op i = Operand_of_temp (d_temp d) /\
    (forall e, exec_instr i e (t_id (d_temp d)) = u32 (Z.shiftl (e (t_id t)) (Z.land k 31))).
Proof.
  eexists. split; [reflexivity|]. repeat split.
  intros e. eapply exec_instr_first; [reflexivity|reflexivity|simpl; tauto].
Qed.

Lemma vadd32_st (dst : Definition_) (ta tb : Temp) (n : nat) (L : list Instruction) :
  rc_type (t_rc tb) = vgpr ->
  exists i n' xs,
    vadd32 dst (Operand_of_temp ta) (Operand_of_temp tb) false undef_s2 false (st n L)
      = Some (i, st n' (L ++ [i])) /\
    (n <= n')%nat /\ is_add_op (opcode i) = true /\
    writes i = t_id (d_temp dst) :: xs /\ (forall x, In x xs -> (n <= x < n')%nat) /\
    (forall e, (t_id (d_temp dst) < n)%nat ->
       exec_instr i e (t_id (d_temp dst)) = u32 (e (t_id ta) + e (t_id tb))).
Proof.
  destruct tb as [idb [tyb szb sdb]]; simpl; intros ->.
  unfold vadd32, hint_vcc, hint_def.
  cbn -[chip_ge chip_lt exec_instr fixed_rc_ok]. rewrite andb_false_r, orb_false_r.
  destruct (chip_lt c GFX9); cbn -[exec_instr fixed_rc_ok]; rewrite ?Hlm;
    cbn -[exec_instr]; do 3 eexists; (split; [reflexivity|]);
    (split; [lia|]); (split; [reflexivity|]); (split; [reflexivity|]);
    (split; [cbn; intros x Hx; lia|]);
    intros e He; (eapply exec_instr_first; [reflexivity|reflexivity|cbn; lia]).
Qed.

Lemma vsub32_st (dst : Definition_) (ta tb : Temp) (n : nat) (L : list Instruction) :
  rc_type (t_rc tb) = vgpr ->
  exists i n' xs,
    vsub32 dst (Operand_of_temp ta) (Operand_of_temp tb) false undef_s2 (st n L)
      = Some (i, st n' (L ++ [i])) /\
    (n <= n')%nat /\ is_sub_op (opcode i) = true /\
    writes i = t_id (d_temp dst) :: xs /\ (forall x, In x xs -> (n <= x < n')%nat) /\
    (forall e, (t_id (d_temp dst) < n)%nat ->
       exec_instr i e (t_id (d_temp dst)) = u32 (e (t_id ta) - e (t_id tb))).
Proof.
  destruct tb as [idb [tyb szb sdb]]; simpl; intros ->.
  unfold vsub32. cbn -[chip_ge chip_lt exec_instr vsub32_encoding].
  destruct (chip_lt c GFX9); cbn -[exec_instr chip_ge]; unfold vsub32_encoding;
    cbn -[exec_instr chip_ge]; rewrite ?andb_false_r, ?andb_true_r;
    destruct (chip_ge c GFX10); cbn -[exec_instr];
    do 3 eexists; (split; [reflexivity|]);
    (split; [lia|]); (split; [reflexivity|]); (split; [reflexivity|]);
    (split; [cbn; intros x Hx; lia|]);
    intros e He; (eapply exec_instr_first; [reflexivity|reflexivity|cbn; lia]).
Qed.

End EndMode.

(** ** Bit facts for [ffs], [u_bit_scan] and [util_bitcount] *)

Lemma ffs_scan_spec (m i : nat) (x : Z) :
  (forall j, 0 <= j < Z.of_nat i -> Z.testbit x j = false) ->
  (exists j, Z.of_nat i <= j < Z.of_nat (i + m) /\ Z.testbit x j = true) ->
  Z.of_nat i <= ffs_scan m i x - 1 < Z.of_nat (i + m) /\
  Z.testbit x (ffs_scan m i x - 1) = true /\
  (forall j, 0 <= j < ffs_scan m i x - 1 -> Z.testbit x j = false).
Proof.
  revert i. induction m as [|m IH]; intros i Hlow [j [Hj Hb]]; [lia|].
  simpl. destruct (Z.testbit x (Z.of_nat i)) eqn:Hi.
  - replace (Z.of_nat i + 1 - 1) with (Z.of_nat i) by lia. auto with zarith.
  - destruct (IH (S i)) as [H1 [H2 H3]].
    + intros j' Hj'. destruct (Z.eq_dec j' (Z.of_nat i)) as [->|Hne]; [exact Hi|].
      apply Hlow. lia.
    + exists j. split; [|exact Hb].
      assert (j <> Z.of_nat i) by (intros ->; congruence). lia.
    + split; [lia|]. auto.
Qed.

Lemma ffs_spec (x : Z) :
  0 < x < 2 ^ 32 ->
  0 <= ffs x - 1 < 32 /\ Z.testbit x (ffs x - 1) = true /\
  (forall j, 0 <= j < ffs x - 1 -> Z.testbit x j = false).
Proof.
  intros Hx. destruct (ffs_scan_spec 32 0 x) as [H1 [H2 H3]].
  - intros j Hj. simpl in Hj. lia.
  - exists (Z.log2 x). split; [|apply Z.bit_log2; lia].
    split; [simpl; apply Z.log2_nonneg|].
    apply Z.log2_lt_pow2; [lia|]. exact (proj2 Hx).
  - unfold ffs. simpl in H1. auto.
Qed.

Lemma lxor_clear_bit (x k : Z) :
  0 <= k -> Z.testbit x k = true ->
  Z.lxor x (Z.shiftl 1 k) = x - 2 ^ k.
Proof.
  intros Hk Hb. rewrite Z.shiftl_1_l.
  set (y := Z.lxor x (2 ^ k)).
  assert (Hy : Z.lxor y (2 ^ k) = x)
    by (unfold y; rewrite Z.lxor_assoc, Z.lxor_nilpotent, Z.lxor_0_r; reflexivity).
  assert (Hand : Z.land y (2 ^ k) = 0).
  { apply Z.bits_inj'. intros j Hj. unfold y.
    rewrite Z.land_spec, Z.lxor_spec, Z.pow2_bits_eqb by lia. rewrite Z.bits_0.
    destruct (Z.eqb_spec k j) as [<-|]; [rewrite Hb; reflexivity|].
    rewrite andb_false_r. reflexivity. }
  pose proof (Z.add_nocarry_lxor y (2 ^ k) Hand) as Hs. lia.
Qed.

Definition bitsum (x : Z) (l : list nat) : nat :=
  fold_right (fun i acc => (if Z.testbit x (Z.of_nat i) then 1 else 0) + acc)%nat 0%nat l.

Lemma bitsum_clear (x : Z) (k : nat) (l : list nat) :
  Z.testbit x (Z.of_nat k) = true ->
  bitsum x l = (bitsum (Z.lxor x (2 ^ Z.of_nat k)) l + count_occ Nat.eq_dec l k)%nat.
Proof.
  intros Hb. induction l as [|a l IH]; [reflexivity|]. simpl.
  rewrite IH, Z.lxor_spec, Z.pow2_bits_eqb by lia.
  destruct (Nat.eq_dec a k) as [->|Hne].
  - rewrite Hb, Z.eqb_refl. simpl. lia.
  - replace (Z.of_nat k =? Z.of_nat a) with false by (symmetry; apply Z.eqb_neq; lia).
    rewrite xorb_false_r. destruct (Z.testbit x (Z.of_nat a)); lia.
Qed.

Lemma bitsum_pos (x : Z) (j : nat) (l : list nat) :
  In j l -> Z.testbit x (Z.of_nat j) = true -> (1 <= bitsum x l)%nat.
Proof.
  intros Hin Hb. induction l as [|a l IH]; [destruct Hin|]. simpl.
  destruct Hin as [->|Hin]; [rewrite Hb; lia|]. specialize (IH Hin). lia.
Qed.

Lemma util_bitcount_clear (x : Z) (k : Z) :
  0 <= k < 32 -> Z.testbit x k = true ->
  util_bitcount x = S (util_bitcount (x - 2 ^ k)).
Proof.
  intros Hk Hb. rewrite <- (lxor_clear_bit x k ltac:(lia) Hb). rewrite Z.shiftl_1_l.
  change (util_bitcount x) with (bitsum x (seq 0 32)).
  change (util_bitcount (Z.lxor x (2 ^ k))) with (bitsum (Z.lxor x (2 ^ k)) (seq 0 32)).
  replace k with (Z.of_nat (Z.to_nat k)) in * by lia.
  rewrite (bitsum_clear x (Z.to_nat k)) by exact Hb.
  assert (Hc : count_occ Nat.eq_dec (seq 0 32) (Z.to_nat k) = 1%nat).
  { apply NoDup_count_occ'; [apply seq_NoDup|]. apply in_seq. lia. }
  rewrite Hc. lia.
Qed.

Lemma util_bitcount_zero (x : Z) :
  0 <= x < 2 ^ 32 -> util_bitcount x = 0%nat -> x = 0.
Proof.
  intros Hx H0. destruct (Z.eq_dec x 0) as [|Hne]; [assumption|exfalso].
  assert (Hl : 0 <= Z.log2 x < 32).
  { split; [apply Z.log2_nonneg|]. apply Z.log2_lt_pow2; lia. }
  pose proof (bitsum_pos x (Z.to_nat (Z.log2 x)) (seq 0 32)) as Hp.
  change (util_bitcount x) with (bitsum x (seq 0 32)) in H0.
  rewrite Z2Nat.id in Hp by lia.
  assert (1 <= bitsum x (seq 0 32))%nat; [|lia].
  apply Hp; [apply in_seq; lia|apply Z.bit_log2; lia].
Qed.

Lemma u32_shl (x k : Z) :
  0 <= k < 32 -> u32 (Z.shiftl x (Z.land k 31)) = u32 (x * 2 ^ k).
Proof.
  intros Hk. change 31 with (Z.ones 5). rewrite Z.land_ones by lia.
  rewrite Z.mod_small by (change (2 ^ 5) with 32; lia).
  rewrite Z.shiftl_mul_pow2 by lia. reflexivity.
Qed.

Lemma u32_add (a b : Z) : u32 (u32 a + u32 b) = u32 (a + b).
Proof. unfold u32. rewrite Z.add_mod_idemp_l, Z.add_mod_idemp_r by lia. reflexivity. Qed.

Lemma u32_sub (a b : Z) : u32 (u32 a - b) = u32 (a - b).
Proof. unfold u32. rewrite Zminus_mod_idemp_l. reflexivity. Qed.

Lemma u32_add_l (a b : Z) : u32 (u32 a + b) = u32 (a + b).
Proof. unfold u32. apply Z.add_mod_idemp_l. lia. Qed.

Lemma u32_add_r (a b : Z) : u32 (a + u32 b) = u32 (a + b).
Proof. unfold u32. apply Z.add_mod_idemp_r. lia. Qed.

Lemma u32_small (a : Z) : 0 <= a < 2 ^ 32 -> u32 a = a.
Proof. intros. unfold u32. apply Z.mod_small. lia. Qed.

Lemma mul_loop_zero fuel dst t res cur s :
  mul_loop fuel dst t 0 res cur s = Some (res, s).
Proof. destruct fuel; reflexivity. Qed.

Lemma bind_some {A B} (m : M A) (k : A -> M B) s a s' :
  m s = Some (a, s') -> bind m k s = k a s'.
Proof. unfold bind. intros ->. reflexivity. Qed.

Lemma def_shl_st c w lm it pr nu (k : Z) (t : Temp) (n : nat) (L : list Instruction) :
  exists i,
    (d <- def v1 ;; vop2 v_lshlrev_b32 [d] [OConst k; Operand_of_temp t])
      (st c w lm it pr nu n L) = Some (i, st c w lm it pr nu (S n) (L ++ [i])) /\
    opcode i = v_lshlrev_b32 /\ writes i = [n] /\
    res_op i = Operand_of_temp (mkTemp n v1) /\
    (forall e, exec_instr i e n = u32 (Z.shiftl (e (t_id t)) (Z.land k 31))).
Proof.
  destruct (shl_st c w lm it pr nu (Definition_of (mkTemp n v1)) k t (S n) L)
    as [i [Hi [Hop [Hw [Hr He]]]]].
  exists i. split; [|auto]. erewrite bind_some by apply def_st. exact Hi.
Qed.

(** ** The shift-and-add loop of [v_mul_imm] *)

Section MulLoop.
Variables (c : chip_class) (w : nat) (lm : RegClass) (it : nat) (pr nu : bool).
Hypothesis Hlm : fixed_rc_ok lm = true.
Variables (t : Temp) (dst : Definition_) (v : Z) (e0 : env) (n0 : nat).
Hypothesis Ht : rc_type (t_rc t) = vgpr.
Hypothesis Ht0 : (0 < t_id t < n0)%nat.
Hypothesis Hdst : (t_id (d_temp dst) < n0)%nat.
Hypothesis Hv : 0 <= v < 2 ^ 32.

Local Abbreviation stt := (st c w lm it pr nu).

(** Instructions that write only ids allocated from [n0] on. *)
Definition fresh (E : list Instruction) : Prop :=
  Forall (fun i => Forall (fun x => (n0 <= x)%nat) (writes i)) E.

Definition shl_or_add (i : Instruction) : Prop :=
  opcode i = v_lshlrev_b32 \/ is_add_op (opcode i) = true.

(** [acc] is the part of the immediate already folded into [cur]. *)
Definition loop_inv (imm acc : Z) (res : option Instruction) (cur : Temp) (n : nat)
    (E : list Instruction) : Prop :=
  (n0 <= n)%nat /\ 0 <= acc /\ 0 <= imm < 2 ^ 32 /\ Forall shl_or_add E /\
  (imm <> 0 ->
     fresh E /\ exec_seq E e0 (t_id t) = v /\
     (t_id cur = 0%nat -> acc = 0 /\ 2 <= imm) /\
     (t_id cur <> 0%nat -> (t_id cur < n)%nat /\ rc_type (t_rc cur) = vgpr /\
                           exec_seq E e0 (t_id cur) = u32 (v * acc))) /\
  (imm = 0 -> exists E1 i, E = E1 ++ [i] /\ res = Some i /\ fresh E1 /\
     In (t_id (d_temp dst)) (writes i) /\
     exec_seq E e0 (t_id (d_temp dst)) = u32 (v * acc)).

Definition loop_post (imm acc : Z) (r : option (option Instruction * State)) : Prop :=
  exists n' E1 i, r = Some (Some i, stt n' (E1 ++ [i])) /\
    Forall shl_or_add (E1 ++ [i]) /\ fresh E1 /\
    In (t_id (d_temp dst)) (writes i) /\
    exec_seq (E1 ++ [i]) e0 (t_id (d_temp dst)) = u32 (v * (acc + imm)).

Lemma loop_post_shift imm acc imm' acc' r :
  acc' + imm' = acc + imm -> loop_post imm' acc' r -> loop_post imm acc r.
Proof. unfold loop_post. intros Heq. rewrite Heq. auto. Qed.

Lemma fresh_snoc E i :
  fresh E -> (forall x, In x (writes i) -> (n0 <= x)%nat) -> fresh (E ++ [i]).
Proof.
  intros HE Hi. unfold fresh. apply Forall_app. split; [exact HE|].
  constructor; [|constructor]. apply Forall_forall. exact Hi.
Qed.

Lemma Forall_snoc_sa E i :
  Forall shl_or_add E -> shl_or_add i -> Forall shl_or_add (E ++ [i]).
Proof. intros. apply Forall_app. auto. Qed.

Lemma mul_loop_ok (fuel : nat) : forall imm acc res cur n E,
  (util_bitcount imm <= fuel)%nat -> loop_inv imm acc res cur n E ->
  loop_post imm acc (mul_loop fuel dst t imm res cur (stt n E)).
Proof.
  induction fuel as [|fuel IH];
    intros imm acc res cur n E Hb [Hn [Hacc [Himm [Hsa [Hnz Hz]]]]];
    (destruct (Z.eq_dec imm 0) as [->|Hne];
     [rewrite mul_loop_zero;
      destruct (Hz eq_refl) as [E1 [i [-> [-> [Hf [Hin He]]]]]];
      exists n, E1, i; rewrite Z.add_0_r; auto|]).
  { exfalso. apply Hne. apply util_bitcount_zero; [lia|]. lia. }
  destruct (Hnz Hne) as [Hfr [Htv [Hc0 Hc1]]].
  destruct (ffs_spec imm) as [Hk [Hkb _]]; [lia|].
  pose proof (lxor_clear_bit imm (ffs imm - 1) ltac:(lia) Hkb) as Hx.
  pose proof (util_bitcount_clear imm (ffs imm - 1) Hk Hkb) as Hbc.
  cbn [mul_loop]. rewrite (proj2 (Z.eqb_neq _ _) Hne). unfold u_bit_scan.
  rewrite Hx. set (k := ffs imm - 1) in *. cbn zeta.
  assert (H2k : 0 < 2 ^ k) by (apply Z.pow_pos_nonneg; lia).
  assert (Hpk : 0 <= imm - 2 ^ k)
    by (rewrite <- Hx, Z.shiftl_1_l; apply Z.lxor_nonneg; split; intros; lia).
  assert (Hbf : (util_bitcount (imm - 2 ^ k) <= fuel)%nat) by lia.
  apply (loop_post_shift _ _ (imm - 2 ^ k) (acc + 2 ^ k)); [lia|].
  destruct (Z.eqb_spec (imm - 2 ^ k) 0) as [Hz'|Hnz'];
    [rewrite (bind_some _ _ _ dst (stt n E)) by reflexivity
    |erewrite bind_some by apply def_st];
    destruct (Z.eqb_spec k 0) as [Hk0|Hk0];
    destruct (Nat.eqb_spec (t_id cur) 0) as [Hc|Hc]; cbn [negb andb].
  - (* bit 0, no running result, last bit: excluded by [imm >= 2] *)
    exfalso. destruct (Hc0 Hc). rewrite Hk0 in Hz'. simpl in Hz'. lia.
  - (* bit 0 onto a running result, into [dst] *)
    destruct (Hc1 Hc) as [Hcn [Hcv Hce]].
    destruct (vadd32_st c w lm it pr nu Hlm dst t cur n E Hcv)
      as [i2 [n2 [xs [Hi2 [Hn2 [Hadd [Hw2 [Hxs He2]]]]]]]].
    rewrite (bind_some _ _ _ _ _ Hi2). apply IH; [exact Hbf|]; unfold loop_inv.
    do 3 (split; [lia|]). split; [apply Forall_snoc_sa; [exact Hsa|right; exact Hadd]|].
    split; [intros; contradiction|]. intros _. exists E, i2.
    do 3 (split; [reflexivity || exact Hfr|]). split; [rewrite Hw2; left; reflexivity|].
    rewrite exec_seq_snoc, He2 by lia. rewrite Htv, Hce, Hk0, u32_add_r.
    try (f_equal; simpl; ring).
  - (* shift, no running result, into [dst] *)
    destruct (Hc0 Hc) as [-> _].
    destruct (shl_st c w lm it pr nu dst k t n E) as [i1 [Hi1 [Hop1 [Hw1 [Hr1 He1]]]]].
    rewrite (bind_some _ _ _ _ _ Hi1). apply IH; [exact Hbf|]; unfold loop_inv.
    do 3 (split; [lia|]). split; [apply Forall_snoc_sa; [exact Hsa|left; exact Hop1]|].
    split; [intros; contradiction|]. intros _. exists E, i1.
    do 3 (split; [reflexivity || exact Hfr|]). split; [rewrite Hw1; left; reflexivity|].
    rewrite exec_seq_snoc, He1, Htv, u32_shl by lia. try (f_equal; ring).
  - (* shift added onto a running result, into [dst] *)
    destruct (Hc1 Hc) as [Hcn [Hcv Hce]].
    destruct (def_shl_st c w lm it pr nu k t n E) as [i1 [Hi1 [Hop1 [Hw1 [Hr1 He1]]]]].
    rewrite (bind_some _ _ _ _ _ Hi1), Hr1.
    destruct (vadd32_st c w lm it pr nu Hlm dst (mkTemp n v1) cur (S n) (E ++ [i1]) Hcv)
      as [i2 [n2 [xs [Hi2 [Hn2 [Hadd [Hw2 [Hxs He2]]]]]]]].
    rewrite (bind_some _ _ _ _ _ Hi2). apply IH; [exact Hbf|]; unfold loop_inv.
    do 3 (split; [lia|]).
    split; [apply Forall_snoc_sa; [apply Forall_snoc_sa; [exact Hsa|left; exact Hop1]|right; exact Hadd]|].
    split; [intros; contradiction|]. intros _. exists (E ++ [i1]), i2.
    split; [reflexivity|]. split; [reflexivity|].
    split; [apply fresh_snoc; [exact Hfr|]; rewrite Hw1; intros x [<-|[]]; lia|].
    split; [rewrite Hw2; left; reflexivity|].
    rewrite exec_seq_snoc, He2 by lia. simpl t_id.
    rewrite exec_seq_snoc, He1, exec_instr_notin by (rewrite Hw1; intros [|[]]; lia).
    rewrite Htv, Hce, u32_shl, u32_add_l, u32_add_r by lia. try (f_equal; ring).
  - (* bit 0, no running result: [cur = tmp] *)
    destruct (Hc0 Hc) as [-> _]. apply IH; [exact Hbf|]; unfold loop_inv.
    do 4 (split; [lia || exact Hsa|]). split; [|intros; contradiction].
    intros _. split; [exact Hfr|]. split; [exact Htv|].
    split; [intros; lia|]. intros _. split; [lia|]. split; [exact Ht|].
    rewrite Htv, Hk0. simpl. rewrite Z.mul_1_r, u32_small by lia. reflexivity.
  - (* bit 0 onto a running result, into a new temporary *)
    destruct (Hc1 Hc) as [Hcn [Hcv Hce]].
    destruct (vadd32_st c w lm it pr nu Hlm (Definition_of (mkTemp n v1)) t cur (S n) E Hcv)
      as [i2 [n2 [xs [Hi2 [Hn2 [Hadd [Hw2 [Hxs He2]]]]]]]].
    simpl in Hw2. rewrite (bind_some _ _ _ _ _ Hi2). apply IH; [exact Hbf|]; unfold loop_inv.
    do 3 (split; [lia|]). split; [apply Forall_snoc_sa; [exact Hsa|right; exact Hadd]|].
    split; [|intros; contradiction]. intros _. simpl d_temp; simpl t_id; simpl t_rc.
    split; [apply fresh_snoc; [exact Hfr|]; rewrite Hw2;
            intros x [<-|Hy]; [lia|specialize (Hxs x Hy); lia]|].
    split; [rewrite exec_seq_snoc, exec_instr_notin, Htv; [reflexivity|];
            rewrite Hw2; intros [Heq|Hy]; [lia|specialize (Hxs _ Hy); lia]|].
    split; [intros; lia|]. intros _. split; [lia|]. split; [reflexivity|].
    rewrite exec_seq_snoc. simpl in He2. rewrite He2 by lia.
    rewrite Htv, Hce, Hk0, u32_add_r. try (f_equal; simpl; ring).
  - (* shift, no running result, into a new temporary *)
    destruct (Hc0 Hc) as [-> _].
    destruct (shl_st c w lm it pr nu (Definition_of (mkTemp n v1)) k t (S n) E)
      as [i1 [Hi1 [Hop1 [Hw1 [Hr1 He1]]]]].
    rewrite (bind_some _ _ _ _ _ Hi1). apply IH; [exact Hbf|]; unfold loop_inv.
    do 3 (split; [lia|]). split; [apply Forall_snoc_sa; [exact Hsa|left; exact Hop1]|].
    split; [|intros; contradiction]. intros _. simpl d_temp; simpl t_id; simpl t_rc.
    split; [apply fresh_snoc; [exact Hfr|]; rewrite Hw1; intros x [<-|[]]; simpl; lia|].
    split; [rewrite exec_seq_snoc, exec_instr_notin, Htv; [reflexivity|];
            rewrite Hw1; intros [Heq|[]]; simpl in Heq; lia|].
    split; [intros; lia|]. intros _. split; [lia|]. split; [reflexivity|].
    rewrite exec_seq_snoc. simpl in He1. rewrite He1, Htv, u32_shl by lia. try (f_equal; ring).
  - (* shift added onto a running result, into a new temporary *)
    destruct (Hc1 Hc) as [Hcn [Hcv Hce]].
    destruct (def_shl_st c w lm it pr nu k t (S n) E) as [i1 [Hi1 [Hop1 [Hw1 [Hr1 He1]]]]].
    rewrite (bind_some _ _ _ _ _ Hi1), Hr1.
    destruct (vadd32_st c w lm it pr nu Hlm (Definition_of (mkTemp n v1)) (mkTemp (S n) v1)
                cur (S (S n)) (E ++ [i1]) Hcv)
      as [i2 [n2 [xs [Hi2 [Hn2 [Hadd [Hw2 [Hxs He2]]]]]]]].
    simpl in Hw2. rewrite (bind_some _ _ _ _ _ Hi2). apply IH; [exact Hbf|]; unfold loop_inv.
    do 3 (split; [lia|]).
    split; [apply Forall_snoc_sa; [apply Forall_snoc_sa; [exact Hsa|left; exact Hop1]|right; exact Hadd]|].
    split; [|intros; contradiction]. intros _. simpl d_temp; simpl t_id; simpl t_rc.
    split; [apply fresh_snoc; [apply fresh_snoc; [exact Hfr|]|];
            [rewrite Hw1; intros x [<-|[]]; lia
            |rewrite Hw2; intros x [<-|Hy]; [simpl; lia|specialize (Hxs x Hy); lia]]|].
    split; [rewrite !exec_seq_snoc, !exec_instr_notin, Htv; [reflexivity| |];
            [rewrite Hw1; intros [Heq|[]]; lia
            |rewrite Hw2; intros [Heq|Hy]; [simpl in Heq; lia|specialize (Hxs _ Hy); lia]]|].
    split; [intros; lia|]. intros _. split; [lia|]. split; [reflexivity|].
    rewrite exec_seq_snoc. simpl in He2. rewrite He2 by lia. simpl t_id.
    rewrite exec_seq_snoc, He1, exec_instr_notin by (rewrite Hw1; intros [|[]]; lia).
    rewrite Htv, Hce, u32_shl, u32_add_l, u32_add_r by lia. try (f_equal; ring).
Qed.

End MulLoop.

(** ** Power-of-two tests *)

Lemma land_pred_zero_pow2 (x : Z) :
  0 < x -> Z.land x (x - 1) = 0 -> x = 2 ^ Z.log2 x.
Proof.
  intros Hx H0. destruct (Z.log2_spec x Hx) as [Hlo Hhi].
  destruct (Z.eq_dec x (2 ^ Z.log2 x)) as [|Hne]; [assumption|exfalso].
  assert (Hp : 0 < 2 ^ Z.log2 x)
    by (apply Z.pow_pos_nonneg; [lia|apply Z.log2_nonneg]).
  assert (Hl : Z.log2 (x - 1) = Z.log2 x)
    by (apply Z.log2_unique; [apply Z.log2_nonneg|lia]).
  assert (Hb : Z.testbit (Z.land x (x - 1)) (Z.log2 x) = true).
  { rewrite Z.land_spec, Z.bit_log2 by lia. rewrite <- Hl at 1.
    simpl. apply Z.bit_log2. lia. }
  rewrite H0, Z.bits_0 in Hb. discriminate.
Qed.

Lemma ffs_pow2 (j : Z) : 0 <= j < 32 -> ffs (2 ^ j) - 1 = j.
Proof.
  intros Hj. assert (H2 : 0 < 2 ^ j < 2 ^ 32).
  { split; [apply Z.pow_pos_nonneg; lia|apply Z.pow_lt_mono_r; lia]. }
  destruct (ffs_spec (2 ^ j) H2) as [Hk [Hb _]].
  rewrite Z.pow2_bits_eqb in Hb by lia. apply Z.eqb_eq in Hb. lia.
Qed.

(** A nonzero 32-bit [x] passing the power-of-two test is [2 ^ (ffs x - 1)]. *)
Lemma pow2_test_ffs (x : Z) :
  0 < x < 2 ^ 32 -> Z.land x (u32 (x - 1)) = 0 ->
  0 <= ffs x - 1 < 32 /\ x = 2 ^ (ffs x - 1).
Proof.
  intros Hx H0. rewrite u32_small in H0 by lia.
  pose proof (land_pred_zero_pow2 x (proj1 Hx) H0) as Hp.
  assert (Hl : 0 <= Z.log2 x < 32)
    by (split; [apply Z.log2_nonneg|apply Z.log2_lt_pow2; lia]).
  rewrite Hp, ffs_pow2 by exact Hl. rewrite <- Hp. auto.
Qed.

Lemma bitsum_le (x : Z) (l : list nat) : (bitsum x l <= length l)%nat.
Proof.
  induction l as [|a l IH]; [simpl; lia|]. simpl.
  destruct (Z.testbit x (Z.of_nat a)); lia.
Qed.

Lemma util_bitcount_le (x : Z) : (util_bitcount x <= 32)%nat.
Proof. exact (bitsum_le x (seq 0 32)). Qed.

Lemma lane_mask_ok (p : Program) : fixed_rc_ok (lane_mask p) = true.
Proof. unfold lane_mask. destruct (Nat.eqb (wave_size p) 64); reflexivity. Qed.

Lemma run_end_st {A} (m : M A) (c : chip_class) (w n : nat) :
  run_end m (mkProgram c w n) = m (st c w (lane_mask (mkProgram c w n)) 0 false false n []).
Proof. reflexivity. Qed.

(** ** Set bits *)

Lemma bitsum_filter (x : Z) (l : list nat) :
  bitsum x l = length (filter (fun i => Z.testbit x (Z.of_nat i)) l).
Proof.
  induction l as [|a l IH]; [reflexivity|]. simpl.
  destruct (Z.testbit x (Z.of_nat a)); simpl; rewrite IH; reflexivity.
Qed.

Lemma util_bitcount_popcount (x : Z) : util_bitcount x = popcount x.
Proof. exact (bitsum_filter x (seq 0 32)). Qed.

Lemma land_1_bit0 (x : Z) : Z.to_nat (Z.land x 1) = if Z.testbit x 0 then 1%nat else 0%nat.
Proof.
  change 1 with (Z.ones 1). rewrite Z.land_ones by lia. rewrite Z.bit0_odd.
  change (2 ^ 1) with 2. rewrite Zmod_odd. destruct (Z.odd x); reflexivity.
Qed.

(** ** [vadd32] and [vsub32] from any builder state *)

Lemma same_target_trans s1 s2 s3 :
  same_target s1 s2 -> same_target s2 s3 -> same_target s1 s3.
Proof. unfold same_target. intros [? ?] [? ?]. split; congruence. Qed.

Lemma insert_some i s :
  exists s', insert i s = Some (i, s') /\ same_target s s'.
Proof.
  destruct s as [p [lm ui stt ins it pr nu]].
  destruct ins as [l|]; [destruct ui; [|destruct stt]|];
    eexists; (split; [reflexivity|split; reflexivity]).
Qed.

Lemma create_some fmt op defs ops s :
  exists s', create fmt op defs ops s
    = Some (mkInstr op fmt ops
              (map (fun d => setNUW (setPrecise d (b_precise (st_b s))) (b_nuw (st_b s))) defs),
            s') /\ same_target s s'.
Proof. apply insert_some. Qed.

Lemma def_some rc s :
  def rc s = Some (Definition_of (mkTemp (alloc_id (st_prog s)) rc),
                   mkState (mkProgram (chip (st_prog s)) (wave_size (st_prog s))
                                      (S (alloc_id (st_prog s)))) (st_b s)).
Proof. reflexivity. Qed.

Lemma copy_prefix_some (cond : bool) (b : Operand) s :
  exists b' s',
    (if cond then (d <- def v1 ;; r <- copy d b ;; ret (res_op r)) else ret b) s
      = Some (b', s') /\ same_target s s'.
Proof.
  destruct cond; [|exists b, s; split; [reflexivity|split; reflexivity]].
  rewrite (bind_some _ _ _ _ _ (def_some v1 s)).
  edestruct create_some as [s' [Hc Hs]]. unfold copy, pseudo.
  rewrite (bind_some _ _ _ _ _ Hc). do 2 eexists. split; [reflexivity|].
  exact Hs.
Qed.

Lemma vsub32_shape dst a b co borrow s :
  exists i s', vsub32 dst a b co borrow s = Some (i, s') /\ same_target s s' /\
    let c := chip (st_prog s) in
    let co' := if negb (isUndefined borrow) || chip_lt c GFX9 then true else co in
    let rev := negb (isTemp b) || negb (op_type_is b vgpr) in
    (let '(v3, op) := vsub32_encoding c (vsub32_opcode co' (isUndefined borrow) rev) in
     opcode i = op /\ format i = (if v3 then [VOP3] else [VOP2])) /\
    length (definitions i) = (if co' then 2%nat else 1%nat) /\
    (forall dc, nth_error (definitions i) 1 = Some dc -> d_hint dc = Some vcc).
Proof.
  unfold vsub32. rewrite (bind_some _ _ _ _ _ (eq_refl : get_prog s = Some (st_prog s, s))).
  cbv beta zeta.
  destruct (if negb (isTemp b) || negb (op_type_is b vgpr) then (b, a) else (a, b)) as [a' b'].
  match goal with |- context [bind (if ?cond then _ else ret ?bb) _ s] =>
    destruct (copy_prefix_some cond bb s) as [b'' [s1 [Hc Hs1]]] end.
  rewrite (bind_some _ _ _ _ _ Hc).
  destruct (if negb (isUndefined borrow) || chip_lt (chip (st_prog s)) GFX9 then true else co) eqn:Hco.
  - erewrite bind_some by reflexivity.
    destruct (vsub32_encoding _ _) as [v3 op].
    edestruct insert_some as [s2 [Hi Hs2]]. rewrite Hi.
    do 2 eexists. split; [reflexivity|]. split.
    { eapply same_target_trans; [exact Hs1|]. exact Hs2. }
    split; [split; reflexivity|]. split; [reflexivity|].
    intros dc Hdc. simpl in Hdc. injection Hdc as <-. reflexivity.
  - rewrite (bind_some _ _ _ _ _ (eq_refl : ret None s1 = Some (None, s1))).
    destruct (vsub32_encoding _ _) as [v3 op].
    edestruct insert_some as [s2 [Hi Hs2]]. rewrite Hi.
    do 2 eexists. split; [reflexivity|]. split.
    { eapply same_target_trans; [exact Hs1|]. exact Hs2. }
    split; [split; reflexivity|]. split; [reflexivity|].
    intros dc Hdc. simpl in Hdc. destruct (isUndefined borrow); discriminate.
Qed.

Lemma vadd32_carry_in_shape dst a b co ci post_ra s :
  isUndefined ci = false -> fixed_rc_ok (b_lm (st_b s)) = true ->
  exists i s', vadd32 dst a b co ci post_ra s = Some (i, s') /\
    opcode i = v_addc_co_u32 /\ format i = [VOP2] /\ length (definitions i) = 2%nat /\
    (forall dc, nth_error (definitions i) 1 = Some dc -> d_hint dc = Some vcc).
Proof.
  intros Hu Hlm. unfold vadd32.
  destruct (if negb (isTemp b) || negb (op_type_is b vgpr) then (b, a) else (a, b)) as [a' b'].
  match goal with |- context [bind (if ?cond then _ else ret ?bb) _ s] =>
    destruct (copy_prefix_some cond bb s) as [b'' [s1 [Hc [_ Hl1]]]] end.
  rewrite (bind_some _ _ _ _ _ Hc).
  rewrite (bind_some _ _ _ _ _ (eq_refl : get_prog s1 = Some (st_prog s1, s1))).
  rewrite (bind_some _ _ _ _ _ (eq_refl : get_builder s1 = Some (st_b s1, s1))).
  cbv beta zeta. rewrite Hu. cbn [negb].
  rewrite (bind_some _ _ _ _ _ (def_some _ s1)).
  unfold hint_vcc, hint_def. cbn [constrained].
  unfold d_regClass. cbn [Definition_of d_temp t_rc]. rewrite Hl1, Hlm.
  erewrite bind_some by reflexivity.
  edestruct create_some as [s2 [Hi _]]. unfold vop2. rewrite Hi.
  do 2 eexists. split; [reflexivity|]. do 3 (split; [reflexivity|]).
  intros dc Hdc. simpl in Hdc. injection Hdc as <-. reflexivity.
Qed.

(** ** Cursor insertion *)

Lemma insert_cursor_step p lm st0 l i pr nu x :
  insert x (mkState p (mkBuilder lm true st0 (Some l) i pr nu))
  = Some (x, mkState p (mkBuilder lm true st0 (Some (firstn i l ++ x :: skipn i l)) (S i) pr nu)).
Proof. reflexivity. Qed.

Lemma cursor_split (l : list Instruction) (i : nat) (x : Instruction) :
  (i <= length l)%nat ->
  firstn (S i) (firstn i l ++ x :: skipn i l) = firstn i l ++ [x] /\
  skipn (S i) (firstn i l ++ x :: skipn i l) = skipn i l.
Proof.
  intros Hi. assert (Hl : length (firstn i l) = i) by (apply firstn_length_le; exact Hi).
  rewrite firstn_app, skipn_app, Hl. replace (S i - i)%nat with 1%nat by lia.
  rewrite (firstn_all2 (firstn i l)) by lia. rewrite (skipn_all2 (firstn i l)) by lia.
  split; reflexivity.
Qed.

(* ================================================================== *)
(** * The claims *)

(** C1: for every 32-bit immediate [imm] and every 32-bit value [v] held by
    the vector source [t], the sequence [v_mul_imm dst t imm] emits (on the
    non-24-bit path) computes [(v * imm) mod 2^32] into [dst]; [dst] is
    written by the last emitted instruction and by no earlier one. *)
Theorem v_mul_imm_correct (c : chip_class) (w n : nat) (dst : Definition_) (t : Temp)
    (imm v : Z) (e0 : env) :
  rc_type (t_rc t) = vgpr -> (0 < t_id t < n)%nat -> (t_id (d_temp dst) < n)%nat ->
  0 <= imm < 2 ^ 32 -> 0 <= v < 2 ^ 32 -> e0 (t_id t) = v ->
  exists s' E i,
    run_end (v_mul_imm dst t imm false) (mkProgram c w n) = Some (Some i, s') /\
    b_instructions (st_b s') = Some (E ++ [i]) /\
    In (t_id (d_temp dst)) (writes i) /\
    Forall (fun j => ~ In (t_id (d_temp dst)) (writes j)) E /\
    exec_seq (E ++ [i]) e0 (t_id (d_temp dst)) = u32 (v * imm).
Proof.
  intros Ht Ht0 Hdst Himm Hv He0.
  rewrite run_end_st. pose proof (lane_mask_ok (mkProgram c w n)) as Hlm.
  set (lm := lane_mask (mkProgram c w n)) in *.
  assert (Hrt : RegType_eqb (rc_type (t_rc t)) vgpr = true) by (rewrite Ht; reflexivity).
  unfold v_mul_imm. unfold bind at 1. unfold assert. rewrite Hrt. unfold ret at 1.
  unfold bind at 1. unfold get_prog at 1. cbv beta iota.
  change (chip (st_prog (st c w lm 0 false false n []))) with c.
  destruct (Z.eqb_spec imm 0) as [->|H0].
  { (* imm = 0: a copy of 0 *)
    eexists; exists []; eexists. split; [reflexivity|]. split; [reflexivity|].
    split; [left; reflexivity|]. split; [constructor|].
    rewrite Z.mul_0_r. simpl exec_seq.
    erewrite exec_instr_first; [reflexivity|reflexivity|reflexivity|simpl; tauto]. }
  destruct (Z.eqb_spec imm 1) as [->|H1].
  { (* imm = 1: a copy of the source *)
    eexists; exists []; eexists. split; [reflexivity|]. split; [reflexivity|].
    split; [left; reflexivity|]. split; [constructor|].
    rewrite Z.mul_1_r, u32_small by lia. simpl exec_seq.
    erewrite exec_instr_first; [exact He0|reflexivity|reflexivity|simpl; tauto]. }
  destruct (util_is_power_of_two_or_zero imm) eqn:Hp2.
  { (* a power of two: one shift *)
    apply Z.eqb_eq in Hp2. destruct (pow2_test_ffs imm ltac:(lia) Hp2) as [Hk Hpow].
    destruct (shl_st c w lm 0 false false dst (ffs imm - 1) t n [])
      as [i1 [Hi1 [Hop1 [Hw1 [Hr1 He1]]]]].
    rewrite (bind_some _ _ _ _ _ Hi1).
    eexists; exists []; exists i1. split; [reflexivity|]. split; [reflexivity|].
    split; [rewrite Hw1; left; reflexivity|]. split; [constructor|].
    simpl exec_seq. rewrite He1, He0, u32_shl, <- Hpow by exact Hk. reflexivity. }
  assert (H2 : 2 <= imm) by lia.
  destruct (util_is_power_of_two_nonzero (u32 (imm - 1))) eqn:Hq.
  { (* [imm - 1] a power of two: shift, then add the source *)
    rewrite u32_small in * by lia.
    apply andb_prop in Hq as [_ Hq]. apply Z.eqb_eq in Hq.
    destruct (pow2_test_ffs (imm - 1) ltac:(lia) Hq) as [Hk Hpow].
    destruct (def_shl_st c w lm 0 false false (ffs (imm - 1) - 1) t n [])
      as [i1 [Hi1 [Hop1 [Hw1 [Hr1 He1]]]]].
    rewrite (bind_some _ _ _ _ _ Hi1), Hr1.
    destruct (vadd32_st c w lm 0 false false Hlm dst (mkTemp n v1) t (S n) ([] ++ [i1]) Ht)
      as [i2 [n2 [xs [Hi2 [Hn2 [Hadd [Hw2 [Hxs He2]]]]]]]].
    rewrite (bind_some _ _ _ _ _ Hi2).
    eexists; exists [i1]; exists i2. split; [reflexivity|]. split; [reflexivity|].
    split; [rewrite Hw2; left; reflexivity|].
    split; [constructor; [rewrite Hw1; intros [Heq|[]]; lia|constructor]|].
    rewrite exec_seq_snoc, He2 by lia. simpl exec_seq. simpl t_id.
    rewrite He1, exec_instr_notin by (rewrite Hw1; intros [Heq|[]]; lia).
    rewrite He0, u32_shl, u32_add_l by exact Hk. f_equal. lia. }
  match goal with |- context [if ?b then _ else if _ then mul_loop _ _ _ _ _ _ else _] =>
    destruct b eqn:Hq' end.
  { (* [imm + 1] a power of two: shift, then subtract the source *)
    apply andb_prop in Hq' as [_ Hq']. apply andb_prop in Hq' as [Hq0 Hq'].
    apply Z.eqb_eq in Hq'.
    assert (Hlt : imm + 1 < 2 ^ 32).
    { destruct (Z.eq_dec (imm + 1) (2 ^ 32)) as [He|]; [|lia].
      rewrite He in Hq0. discriminate. }
    rewrite u32_small in * by lia.
    destruct (pow2_test_ffs (imm + 1) ltac:(lia) Hq') as [Hk Hpow].
    destruct (def_shl_st c w lm 0 false false (ffs (imm + 1) - 1) t n [])
      as [i1 [Hi1 [Hop1 [Hw1 [Hr1 He1]]]]].
    rewrite (bind_some _ _ _ _ _ Hi1), Hr1.
    destruct (vsub32_st c w lm 0 false false dst (mkTemp n v1) t (S n) ([] ++ [i1]) Ht)
      as [i2 [n2 [xs [Hi2 [Hn2 [Hsub [Hw2 [Hxs He2]]]]]]]].
    rewrite (bind_some _ _ _ _ _ Hi2).
    eexists; exists [i1]; exists i2. split; [reflexivity|]. split; [reflexivity|].
    split; [rewrite Hw2; left; reflexivity|].
    split; [constructor; [rewrite Hw1; intros [Heq|[]]; lia|constructor]|].
    rewrite exec_seq_snoc, He2 by lia. simpl exec_seq. simpl t_id.
    rewrite He1, exec_instr_notin by (rewrite Hw1; intros [Heq|[]]; lia).
    rewrite He0, u32_shl, u32_sub by exact Hk. f_equal. rewrite <- Hpow. ring. }
  match goal with |- context [if ?b then mul_loop _ _ _ _ _ _ else _] => destruct b end.
  { (* the shift-and-add loop *)
    destruct (mul_loop_ok c w lm 0 false false Hlm t dst v e0 n Ht Ht0 Hdst Hv 32
                imm 0 None Temp_none n [] (util_bitcount_le imm))
      as [n' [E1 [i [Hr [Hsa [Hf [Hin Hex]]]]]]].
    { unfold loop_inv. split; [lia|]. split; [lia|]. split; [lia|].
      split; [constructor|]. split; [|intros; contradiction].
      intros _. split; [constructor|]. split; [exact He0|].
      split; [intros _; lia|]. intros Hc; simpl in Hc; congruence. }
    rewrite Hr. exists (st c w lm 0 false false n' (E1 ++ [i])), E1, i.
    split; [reflexivity|]. split; [reflexivity|]. split; [exact Hin|].
    split; [|rewrite Hex; f_equal; ring].
    unfold fresh in Hf. eapply Forall_impl; [|exact Hf].
    intros j Hj Hj'. rewrite Forall_forall in Hj. specialize (Hj _ Hj'). lia. }
  (* a multiplication by the immediate materialized in an SGPR *)
  eexists; exists [mkInstr p_parallelcopy [PSEUDO] [OConst imm] [Definition_of (mkTemp n s1)]].
  eexists. split; [reflexivity|]. split; [reflexivity|].
  split; [left; reflexivity|].
  split; [constructor; [simpl; intros [Heq|[]]; lia|constructor]|].
  rewrite exec_seq_snoc.
  erewrite exec_instr_first; [|reflexivity|reflexivity|simpl; tauto].
  simpl. rewrite (exec_instr_notin _ e0 (t_id t)) by (simpl; intros [Heq|[]]; lia).
  erewrite exec_instr_first; [|reflexivity|reflexivity|simpl; tauto].
  simpl. rewrite He0. f_equal. ring.
Qed.

Lemma v_mul_imm_correct_witness :
  ((0 < 2 < 3)%nat /\ 0 <= 10 < 2 ^ 32 /\ 0 <= 7 < 2 ^ 32) /\
  exists s' E i,
    run_end (v_mul_imm (Definition_of (mkTemp 1 v1)) (mkTemp 2 v1) 10 false)
            (mkProgram GFX9 64 3) = Some (Some i, s') /\
    b_instructions (st_b s') = Some (E ++ [i]) /\
    In 1%nat (writes i) /\
    Forall (fun j => ~ In 1%nat (writes j)) E /\
    exec_seq (E ++ [i]) (fun _ => 7) 1%nat = u32 (7 * 10).
Proof.
  split; [split; [lia|split; lia]|].
  exact (v_mul_imm_correct GFX9 64 3 (Definition_of (mkTemp 1 v1)) (mkTemp 2 v1) 10 7
           (fun _ => 7) eq_refl ltac:(simpl; lia) ltac:(simpl; lia)
           ltac:(lia) ltac:(lia) eq_refl).
Defined.

(** C2: on a vector source, [v_mul_imm] emits one instruction for [imm = 0]
    and for [imm = 1]; one shift by 3 for [imm = 8]; a shift by 3 then an
    add of its result for [imm = 9]; and, where the multiply cost exceeds 2,
    a shift by 3 then a subtract of its result for [imm = 7]. *)
Theorem v_mul_imm_small_cases (c : chip_class) (w n : nat) (dst : Definition_) (t : Temp) :
  rc_type (t_rc t) = vgpr ->
  length (emitted (run_end (v_mul_imm dst t 0 false) (mkProgram c w n))) = 1%nat /\
  length (emitted (run_end (v_mul_imm dst t 1 false) (mkProgram c w n))) = 1%nat /\
  (exists i, emitted (run_end (v_mul_imm dst t 8 false) (mkProgram c w n)) = [i] /\
     opcode i = v_lshlrev_b32 /\ hd_error (operands i) = Some (OConst 3)) /\
  (exists i1 i2, emitted (run_end (v_mul_imm dst t 9 false) (mkProgram c w n)) = [i1; i2] /\
     opcode i1 = v_lshlrev_b32 /\ hd_error (operands i1) = Some (OConst 3) /\
     is_add_op (opcode i2) = true /\ In (res_op i1) (operands i2)) /\
  ((2 < mul_cost c 7)%nat ->
   exists i1 i2, emitted (run_end (v_mul_imm dst t 7 false) (mkProgram c w n)) = [i1; i2] /\
     opcode i1 = v_lshlrev_b32 /\ hd_error (operands i1) = Some (OConst 3) /\
     is_sub_op (opcode i2) = true /\ In (res_op i1) (operands i2)).
Proof.
  destruct t as [tid [ty sz sd]]; simpl; intros ->.
  unfold run_end, Builder_new, lane_mask. cbn [wave_size].
  destruct c; destruct (w =? 64)%nat; vm_compute;
    repeat first [ reflexivity | progress (intros; try lia) | split | eexists
                 | left; reflexivity | right; left; reflexivity ].
Qed.

Lemma v_mul_imm_small_cases_witness :
  rc_type (t_rc (mkTemp 2 v1)) = vgpr /\ (2 < mul_cost GFX9 7)%nat /\
  exists i1 i2,
    emitted (run_end (v_mul_imm (Definition_of (mkTemp 1 v1)) (mkTemp 2 v1) 7 false)
                     (mkProgram GFX9 64 3)) = [i1; i2] /\
    opcode i1 = v_lshlrev_b32 /\ is_sub_op (opcode i2) = true.
Proof.
  split; [reflexivity|]. split; [vm_compute; lia|].
  destruct (v_mul_imm_small_cases GFX9 64 3 (Definition_of (mkTemp 1 v1)) (mkTemp 2 v1)
              eq_refl) as [_ [_ [_ [_ H7]]]].
  destruct (H7 ltac:(vm_compute; lia)) as [i1 [i2 [He [Ho [_ [Hs _]]]]]].
  exists i1, i2. auto.
Defined.

(** C3: outside the special cases (imm 0, 1, a power of two, the 24-bit
    path, imm - 1 or imm + 1 a nonzero power of two), [v_mul_imm] emits the
    shift-and-add decomposition (shifts and adds only) exactly when the
    decomposition cost is below the multiply cost, both as the spec defines
    them; otherwise it copies [imm] into a new SGPR and emits one
    [v_mul_lo_u32] of that register and the source into [dst]. *)
Theorem v_mul_imm_strategy (c : chip_class) (w n : nat) (dst : Definition_) (t : Temp)
    (imm : Z) :
  rc_type (t_rc t) = vgpr -> (0 < t_id t < n)%nat -> (t_id (d_temp dst) < n)%nat ->
  0 <= imm < 2 ^ 32 -> imm <> 0 -> imm <> 1 ->
  util_is_power_of_two_or_zero imm = false ->
  util_is_power_of_two_nonzero (u32 (imm - 1)) = false ->
  util_is_power_of_two_nonzero (u32 (imm + 1)) = false ->
  ((claim_decomposition_cost c imm < claim_multiply_cost c imm)%nat ->
   run_end (v_mul_imm dst t imm false) (mkProgram c w n) <> None /\
   emitted (run_end (v_mul_imm dst t imm false) (mkProgram c w n)) <> [] /\
   Forall shl_or_add (emitted (run_end (v_mul_imm dst t imm false) (mkProgram c w n)))) /\
  (~ (claim_decomposition_cost c imm < claim_multiply_cost c imm)%nat ->
   exists i1 i2,
     emitted (run_end (v_mul_imm dst t imm false) (mkProgram c w n)) = [i1; i2] /\
     opcode i1 = p_parallelcopy /\ operands i1 = [OConst imm] /\
     writes i1 = [n] /\ map d_regClass (definitions i1) = [s1] /\
     opcode i2 = v_mul_lo_u32 /\ format i2 = [VOP3] /\
     operands i2 = [res_op i1; Operand_of_temp t] /\ writes i2 = [t_id (d_temp dst)]).
Proof.
  intros Ht Ht0 Hdst Himm H0 H1 Hp2 Hq Hq'.
  pose proof (lane_mask_ok (mkProgram c w n)) as Hlm.
  set (lm := lane_mask (mkProgram c w n)) in *.
  assert (Hrt : RegType_eqb (rc_type (t_rc t)) vgpr = true) by (rewrite Ht; reflexivity).
  assert (Hcost : (if chip_ge c GFX9 then util_bitcount imm
                   else (util_bitcount imm - Z.to_nat (Z.land imm 1)
                         + (util_bitcount imm - 1))%nat)
                  = claim_decomposition_cost c imm).
  { unfold claim_decomposition_cost. rewrite land_1_bit0, util_bitcount_popcount.
    reflexivity. }
  remember (run_end (v_mul_imm dst t imm false) (mkProgram c w n)) as r eqn:Hr.
  rewrite run_end_st in Hr. fold lm in Hr.
  unfold v_mul_imm in Hr. unfold bind at 1 in Hr. unfold assert in Hr. rewrite Hrt in Hr.
  unfold ret at 1 in Hr. unfold bind at 1 in Hr. unfold get_prog at 1 in Hr. cbv beta iota in Hr.
  change (chip (st_prog (st c w lm 0 false false n []))) with c in Hr.
  rewrite (proj2 (Z.eqb_neq _ _) H0), (proj2 (Z.eqb_neq _ _) H1), Hp2, Hq, Hq', andb_false_r
    in Hr.
  rewrite Hcost in Hr. change (mul_cost c imm) with (claim_multiply_cost c imm) in Hr.
  split; intros Hlt.
  - apply Nat.ltb_lt in Hlt. rewrite Hlt in Hr.
    destruct (mul_loop_ok c w lm 0 false false Hlm t dst 0 (fun _ => 0) n Ht Ht0 Hdst
                ltac:(lia) 32 imm 0 None Temp_none n [] (util_bitcount_le imm))
      as [n' [E1 [i [Hr' [Hsa _]]]]].
    { unfold loop_inv. split; [lia|]. split; [lia|]. split; [lia|].
      split; [constructor|]. split; [|intros; contradiction].
      intros _. split; [constructor|]. split; [reflexivity|].
      split; [intros _; lia|]. intros Hc; simpl in Hc; congruence. }
    rewrite Hr, Hr'. split; [discriminate|]. simpl. split; [|exact Hsa].
    destruct E1; discriminate.
  - apply Nat.ltb_nlt in Hlt. rewrite Hlt in Hr. subst r.
    do 2 eexists. split; [reflexivity|]. repeat split.
Qed.

Lemma v_mul_imm_strategy_witness :
  (claim_decomposition_cost GFX9 11 < claim_multiply_cost GFX9 11)%nat /\
  Forall shl_or_add
    (emitted (run_end (v_mul_imm (Definition_of (mkTemp 1 v1)) (mkTemp 2 v1) 11 false)
                      (mkProgram GFX9 64 3))).
Proof.
  assert (Hlt : (claim_decomposition_cost GFX9 11 < claim_multiply_cost GFX9 11)%nat)
    by (vm_compute; lia).
  split; [exact Hlt|].
  refine (proj2 (proj2 (proj1 (v_mul_imm_strategy GFX9 64 3 (Definition_of (mkTemp 1 v1))
            (mkTemp 2 v1) 11 eq_refl ltac:(simpl; lia) ltac:(simpl; lia) ltac:(lia)
            ltac:(lia) ltac:(lia) ltac:(vm_compute; reflexivity) ltac:(vm_compute; reflexivity)
            ltac:(vm_compute; reflexivity)) Hlt))).
Defined.

(** C4: whenever [vadd32] gets a defined carry-in (and the builder's lane
    mask is the program's), it emits [v_addc_co_u32] whose second
    definition, the carry, is hinted to [vcc], on every chip class and
    whatever [carry_out] and [post_ra] are. *)
Theorem vadd32_carry_in (dst : Definition_) (a b carry_in : Operand)
    (carry_out post_ra : bool) (s : State) :
  b_lm (st_b s) = lane_mask (st_prog s) -> isUndefined carry_in = false ->
  exists i s', vadd32 dst a b carry_out carry_in post_ra s = Some (i, s') /\
    opcode i = v_addc_co_u32 /\
    exists dc, nth_error (definitions i) 1 = Some dc /\ d_hint dc = Some vcc.
Proof.
  intros Hlm Hu.
  destruct (vadd32_carry_in_shape dst a b carry_out carry_in post_ra s Hu)
    as [i [s' [Hr [Hop [_ [Hlen Hh]]]]]].
  { rewrite Hlm. apply lane_mask_ok. }
  exists i, s'. split; [exact Hr|]. split; [exact Hop|].
  destruct (nth_error (definitions i) 1) as [dc|] eqn:Hn.
  - exists dc. split; [reflexivity|]. apply Hh; reflexivity.
  - apply nth_error_None in Hn. lia.
Qed.

Lemma vadd32_carry_in_witness :
  b_lm (st_b (mkState (mkProgram GFX10 32 5) (Builder_new (mkProgram GFX10 32 5) (Some []))))
    = lane_mask (mkProgram GFX10 32 5) /\
  isUndefined (OTemp (mkTemp 4 s1) None) = false /\
  exists i s',
    vadd32 (Definition_of (mkTemp 1 v1)) (OTemp (mkTemp 2 v1) None) (OTemp (mkTemp 3 v1) None)
           true (OTemp (mkTemp 4 s1) None) false
           (mkState (mkProgram GFX10 32 5) (Builder_new (mkProgram GFX10 32 5) (Some [])))
      = Some (i, s') /\ opcode i = v_addc_co_u32.
Proof.
  split; [reflexivity|]. split; [reflexivity|].
  destruct (vadd32_carry_in (Definition_of (mkTemp 1 v1)) (OTemp (mkTemp 2 v1) None)
              (OTemp (mkTemp 3 v1) None) (OTemp (mkTemp 4 s1) None) true false
              (mkState (mkProgram GFX10 32 5) (Builder_new (mkProgram GFX10 32 5) (Some [])))
              eq_refl eq_refl) as [i [s' [Hr [Ho _]]]].
  exists i, s'. split; [exact Hr|exact Ho].
Defined.


(** C5: whenever [vsub32] gets a defined borrow-in, the emitted subtract
    has two definitions, the second (the carry-out) hinted to [vcc], even
    for [carry_out = false]. *)
Theorem vsub32_borrow_carry_out (dst : Definition_) (a b borrow : Operand)
    (carry_out : bool) (s : State) :
  isUndefined borrow = false ->
  exists i s', vsub32 dst a b carry_out borrow s = Some (i, s') /\
    length (definitions i) = 2%nat /\
    exists dc, nth_error (definitions i) 1 = Some dc /\ d_hint dc = Some vcc.
Proof.
  intros Hu.
  destruct (vsub32_shape dst a b carry_out borrow s) as [i [s' [Hr [_ [_ [Hlen Hh]]]]]].
  exists i, s'. split; [exact Hr|]. rewrite Hu in Hlen. cbn in Hlen.
  split; [exact Hlen|].
  destruct (nth_error (definitions i) 1) as [dc|] eqn:Hn.
  - exists dc. split; [reflexivity|]. apply Hh; reflexivity.
  - apply nth_error_None in Hn. lia.
Qed.

Lemma vsub32_borrow_carry_out_witness :
  isUndefined (OTemp (mkTemp 4 s2) None) = false /\
  exists i s',
    vsub32 (Definition_of (mkTemp 1 v1)) (OTemp (mkTemp 2 v1) None) (OTemp (mkTemp 3 v1) None)
           false (OTemp (mkTemp 4 s2) None)
           (mkState (mkProgram GFX9 64 5) (Builder_new (mkProgram GFX9 64 5) (Some [])))
      = Some (i, s') /\ length (definitions i) = 2%nat.
Proof.
  split; [reflexivity|].
  destruct (vsub32_borrow_carry_out (Definition_of (mkTemp 1 v1)) (OTemp (mkTemp 2 v1) None)
              (OTemp (mkTemp 3 v1) None) (OTemp (mkTemp 4 s2) None) false
              (mkState (mkProgram GFX9 64 5) (Builder_new (mkProgram GFX9 64 5) (Some [])))
              eq_refl) as [i [s' [Hr [Hl _]]]].
  exists i, s'. split; [exact Hr|exact Hl].
Defined.


(** C6 (as amended): on GFX10 and later, a [vsub32] that produces a carry
    keeps its carry definition hinted to [vcc]; without a borrow-in it uses
    the VOP3 [_e64] opcode, with a borrow-in it stays the VOP2
    [v_subb_co_u32] / [v_subbrev_co_u32]. *)
Theorem vsub32_gfx10_encoding (dst : Definition_) (a b borrow : Operand)
    (carry_out : bool) (s : State) :
  chip_ge (chip (st_prog s)) GFX10 = true ->
  exists i s', vsub32 dst a b carry_out borrow s = Some (i, s') /\
    (length (definitions i) = 2%nat ->
     (forall dc, nth_error (definitions i) 1 = Some dc -> d_hint dc = Some vcc) /\
     (isUndefined borrow = true ->
        format i = [VOP3] /\ (opcode i = v_sub_co_u32_e64 \/ opcode i = v_subrev_co_u32_e64)) /\
     (isUndefined borrow = false ->
        format i = [VOP2] /\ (opcode i = v_subb_co_u32 \/ opcode i = v_subbrev_co_u32))).
Proof.
  intros Hc.
  destruct (vsub32_shape dst a b carry_out borrow s) as [i [s' [Hr [_ [Hof [Hlen Hh]]]]]].
  exists i, s'. split; [exact Hr|]. intros H2. split; [exact Hh|].
  assert (Hlt : chip_lt (chip (st_prog s)) GFX9 = false)
    by (unfold chip_lt, chip_ge in *; destruct (chip (st_prog s)); simpl in *; congruence).
  unfold vsub32_encoding, vsub32_opcode in Hof. rewrite Hc, Hlt in Hof. rewrite Hlt in Hlen.
  destruct (isUndefined borrow); cbn [negb orb] in Hof, Hlen;
    destruct carry_out; try (rewrite H2 in Hlen; discriminate);
    destruct (negb (isTemp b) || negb (op_type_is b vgpr)); cbn in Hof;
    destruct Hof as [Hop Hf]; split; intros; try discriminate; auto.
Qed.

Lemma vsub32_gfx10_encoding_witness :
  chip_ge (chip (st_prog (mkState (mkProgram GFX10 64 5)
                                  (Builder_new (mkProgram GFX10 64 5) (Some []))))) GFX10 = true /\
  exists i s',
    vsub32 (Definition_of (mkTemp 1 v1)) (OTemp (mkTemp 2 v1) None) (OTemp (mkTemp 3 v1) None)
           true (OUndef s2)
           (mkState (mkProgram GFX10 64 5) (Builder_new (mkProgram GFX10 64 5) (Some [])))
      = Some (i, s') /\ format i = [VOP3].
Proof.
  split; [reflexivity|].
  destruct (vsub32_gfx10_encoding (Definition_of (mkTemp 1 v1)) (OTemp (mkTemp 2 v1) None)
              (OTemp (mkTemp 3 v1) None) (OUndef s2) true
              (mkState (mkProgram GFX10 64 5) (Builder_new (mkProgram GFX10 64 5) (Some [])))
              eq_refl) as [i [s' [Hr Hv]]].
  exists i, s'. split; [exact Hr|].
  assert (Hl : length (definitions i) = 2%nat)
    by (vm_compute in Hr; injection Hr as <- _; reflexivity).
  exact (proj1 (proj1 (proj2 (Hv Hl)) eq_refl)).
Defined.


(** C6, counterexample: on GFX10 a [vsub32] with a borrow-in produces a
    carry, yet is emitted in the VOP2 encoding as [v_subb_co_u32]. *)
Lemma vsub32_gfx10_borrow_vop2 :
  exists i s',
    vsub32 (Definition_of (mkTemp 1 v1)) (OTemp (mkTemp 2 v1) None)
           (OTemp (mkTemp 3 v1) None) false (OTemp (mkTemp 4 s2) None)
           (mkState (mkProgram GFX10 64 5) (Builder_new (mkProgram GFX10 64 5) (Some [])))
      = Some (i, s') /\
    chip_ge GFX10 GFX10 = true /\ length (definitions i) = 2%nat /\
    opcode i = v_subb_co_u32 /\ format i = [VOP2].
Proof. vm_compute. do 2 eexists. split; [reflexivity|]. repeat split. Qed.


(** C10: before GFX9 every [vsub32] emits a second, carry-out definition
    hinted to [vcc]; the no-carry opcodes [v_sub_u32] and [v_subrev_u32]
    are emitted only on GFX9 and later. *)
Theorem vsub32_pre_gfx9_carry (dst : Definition_) (a b borrow : Operand)
    (carry_out : bool) (s : State) :
  exists i s', vsub32 dst a b carry_out borrow s = Some (i, s') /\
    (chip_lt (chip (st_prog s)) GFX9 = true ->
       length (definitions i) = 2%nat /\
       exists dc, nth_error (definitions i) 1 = Some dc /\ d_hint dc = Some vcc) /\
    (opcode i = v_sub_u32 \/ opcode i = v_subrev_u32 -> chip_ge (chip (st_prog s)) GFX9 = true).
Proof.
  destruct (vsub32_shape dst a b carry_out borrow s) as [i [s' [Hr [_ [Hof [Hlen Hh]]]]]].
  exists i, s'. split; [exact Hr|]. split.
  - intros Hlt. rewrite Hlt, orb_true_r in Hlen. split; [exact Hlen|].
    destruct (nth_error (definitions i) 1) as [dc|] eqn:Hn.
    + exists dc. split; [reflexivity|]. apply Hh; reflexivity.
    + apply nth_error_None in Hn. lia.
  - intros Hop. unfold chip_lt in Hof. destruct (chip_ge (chip (st_prog s)) GFX9); [reflexivity|].
    rewrite orb_true_r in Hof. unfold vsub32_encoding, vsub32_opcode in Hof.
    destruct (isUndefined borrow), (negb (isTemp b) || negb (op_type_is b vgpr)),
      (chip_ge (chip (st_prog s)) GFX10); cbn in Hof; destruct Hof as [Ho _];
      rewrite Ho in Hop; destruct Hop; discriminate.
Qed.

Lemma vsub32_pre_gfx9_carry_witness :
  chip_lt (chip (st_prog (mkState (mkProgram GFX8 64 5)
                                  (Builder_new (mkProgram GFX8 64 5) (Some []))))) GFX9 = true /\
  exists i s',
    vsub32 (Definition_of (mkTemp 1 v1)) (OTemp (mkTemp 2 v1) None) (OTemp (mkTemp 3 v1) None)
           false (OUndef s2)
           (mkState (mkProgram GFX8 64 5) (Builder_new (mkProgram GFX8 64 5) (Some [])))
      = Some (i, s') /\ length (definitions i) = 2%nat.
Proof.
  split; [reflexivity|].
  destruct (vsub32_pre_gfx9_carry (Definition_of (mkTemp 1 v1)) (OTemp (mkTemp 2 v1) None)
              (OTemp (mkTemp 3 v1) None) (OUndef s2) false
              (mkState (mkProgram GFX8 64 5) (Builder_new (mkProgram GFX8 64 5) (Some []))))
    as [i [s' [Hr [Hpre _]]]].
  exists i, s'. split; [exact Hr|]. exact (proj1 (Hpre eq_refl)).
Defined.

(** C7 (as amended): [w64or32] is a function of the opcode and the wave
    size.  For each of the 18 mapped opcodes, wave size 64 gives the opcode
    itself (its 64-bit form), and any other wave size gives one fixed 32-bit
    opcode that differs from it.  An opcode outside the mapped set reaches
    [unreachable] only when the wave size is not 64; with wave size 64 it is
    returned unchanged. *)
Theorem w64or32_mapping (op : WaveSpecificOpcode) (w : nat) :
  (In op WaveSpecificOpcodes ->
   exists o32, w64or32 32 op = Some o32 /\ w64or32 64 op = Some op /\ o32 <> op /\
               (w <> 64%nat -> w64or32 w op = Some o32)) /\
  (~ In op WaveSpecificOpcodes ->
   w64or32 64 op = Some op /\ (w <> 64%nat -> w64or32 w op = None)).
Proof.
  unfold w64or32. destruct (Nat.eqb_spec w 64) as [->|Hw].
  - destruct op; unfold WaveSpecificOpcodes, s_cselect, s_cmp_lg, s_and, s_andn2, s_or, s_orn2, s_not, s_mov, s_wqm, s_and_saveexec, s_or_saveexec, s_xnor, s_xor, s_bcnt1_i32, s_bitcmp1, s_ff1_i32, s_flbit_i32, s_lshl; cbn; split; intros H;
      first [ eexists; split; [reflexivity|]; split; [reflexivity|];
              split; [discriminate|intros Hc; exfalso; apply Hc; reflexivity]
            | split; [reflexivity|intros Hc; exfalso; apply Hc; reflexivity]
            | exfalso; apply H; solve [repeat first [left; reflexivity | right]]
            | exfalso; repeat (destruct H as [H|H]; [discriminate H|]); exact H ].
  - destruct op; unfold WaveSpecificOpcodes, s_cselect, s_cmp_lg, s_and, s_andn2, s_or, s_orn2, s_not, s_mov, s_wqm, s_and_saveexec, s_or_saveexec, s_xnor, s_xor, s_bcnt1_i32, s_bitcmp1, s_ff1_i32, s_flbit_i32, s_lshl; cbn; split; intros H;
      first [ eexists; split; [reflexivity|]; split; [reflexivity|];
              split; [discriminate|intros _; reflexivity]
            | split; [reflexivity|intros _; reflexivity]
            | exfalso; apply H; solve [repeat first [left; reflexivity | right]]
            | exfalso; repeat (destruct H as [H|H]; [discriminate H|]); exact H ].
Qed.


(** C7, counterexample: [s_add_u32] is outside the mapped set, yet in a
    wave64 program [w64or32] returns it without a fault. *)
Lemma w64or32_wave64_unmapped :
  ~ In s_add_u32 WaveSpecificOpcodes /\ w64or32 64 s_add_u32 = Some s_add_u32.
Proof.
  split; [|reflexivity]. simpl. intros H.
  repeat (destruct H as [H|H]; [discriminate H|]). exact H.
Qed.

(** C8: a builder whose target is a cursor at position [i] of [l]: [N]
    successive inserts give the prefix of [l] before the cursor, the [N]
    instructions in call order, then the rest of [l], with the cursor
    [N] places further on, just past the last inserted instruction. *)
Theorem insert_cursor_order (xs : list Instruction) : forall p lm st0 l i pr nu,
  (i <= length l)%nat ->
  insert_all xs (mkState p (mkBuilder lm true st0 (Some l) i pr nu))
  = Some (tt, mkState p (mkBuilder lm true st0 (Some (firstn i l ++ xs ++ skipn i l))
                                   (i + length xs) pr nu)).
Proof.
  induction xs as [|x xs IH]; intros p lm st0 l i pr nu Hi.
  - cbn. rewrite firstn_skipn, Nat.add_0_r. reflexivity.
  - cbn [insert_all]. rewrite (bind_some _ _ _ _ _ (insert_cursor_step p lm st0 l i pr nu x)).
    rewrite IH by (rewrite length_app; simpl; rewrite firstn_length_le by exact Hi;
                   rewrite length_skipn; lia).
    destruct (cursor_split l i x Hi) as [H1 H2]. rewrite H1, H2, <- app_assoc.
    simpl. rewrite Nat.add_succ_r. reflexivity.
Qed.

Lemma insert_cursor_order_witness :
  (1 <= length [mkInstr p_parallelcopy [PSEUDO] [] []; mkInstr v_mul_lo_u32 [VOP3] [] []])%nat /\
  insert_all [mkInstr v_lshlrev_b32 [VOP2] [] []; mkInstr v_add_u32 [VOP2] [] []]
    (mkState (mkProgram GFX9 64 0)
       (mkBuilder s2 true false
          (Some [mkInstr p_parallelcopy [PSEUDO] [] []; mkInstr v_mul_lo_u32 [VOP3] [] []])
          1 false false))
  = Some (tt, mkState (mkProgram GFX9 64 0)
       (mkBuilder s2 true false
          (Some [mkInstr p_parallelcopy [PSEUDO] [] []; mkInstr v_lshlrev_b32 [VOP2] [] [];
                 mkInstr v_add_u32 [VOP2] [] []; mkInstr v_mul_lo_u32 [VOP3] [] []])
          3 false false)).
Proof.
  split; [simpl; lia|].
  exact (insert_cursor_order [mkInstr v_lshlrev_b32 [VOP2] [] []; mkInstr v_add_u32 [VOP2] [] []]
           (mkProgram GFX9 64 0) s2 false
           [mkInstr p_parallelcopy [PSEUDO] [] []; mkInstr v_mul_lo_u32 [VOP3] [] []]
           1 false false ltac:(simpl; lia)).
Defined.


(** C9: binding [vcc] or [exec] to the operand or definition of a
    temporary faults when the temporary is a VGPR or has more than 8 bytes;
    for an SGPR of at most 8 bytes it succeeds, keeps the temporary and
    records the register (fixed or hinted). *)
Theorem fixed_reg_binding (r : PhysReg) (d : Definition_) (s : State) :
  r = vcc \/ r = exec ->
  ((rc_type (t_rc (d_temp d)) = vgpr \/ (8 < rc_bytes (t_rc (d_temp d)))%nat) ->
     fixed_op r (d_temp d) s = None /\ fixed_def r d s = None /\ hint_def r d s = None) /\
  (rc_type (t_rc (d_temp d)) = sgpr -> (rc_bytes (t_rc (d_temp d)) <= 8)%nat ->
     fixed_op r (d_temp d) s = Some (OTemp (d_temp d) (Some r), s) /\
     (exists d', fixed_def r d s = Some (d', s) /\ d_temp d' = d_temp d /\ d_fixed d' = Some r) /\
     (exists d', hint_def r d s = Some (d', s) /\ d_temp d' = d_temp d /\ d_hint d' = Some r)).
Proof.
  intros Hr.
  assert (Hc : constrained r = true) by (destruct Hr as [->| ->]; reflexivity).
  unfold fixed_op, fixed_def, hint_def, d_regClass, d_bytes. rewrite Hc.
  destruct d as [[tid [ty sz sd]] fx hn pr nu]; cbn [d_temp t_rc rc_type] in *.
  split.
  - intros Hbad. unfold fixed_rc_ok. cbn [rc_type].
    assert (Hf : RegType_eqb ty sgpr && Nat.leb (rc_bytes (mkRC ty sz sd)) 8 = false).
    { destruct Hbad as [-> | Hb]; [reflexivity|].
      apply andb_false_intro2. apply Nat.leb_gt. exact Hb. }
    rewrite Hf. repeat split.
  - intros -> Hb. unfold fixed_rc_ok. cbn [RegType_eqb andb].
    rewrite (proj2 (Nat.leb_le _ _) Hb).
    split; [reflexivity|]. split; eexists; (split; [reflexivity|split; reflexivity]).
Qed.

Lemma fixed_reg_binding_witness :
  (vcc = vcc \/ vcc = exec) /\
  hint_def vcc (Definition_of (mkTemp 3 v1))
    (mkState (mkProgram GFX10 32 4) (Builder_new (mkProgram GFX10 32 4) (Some []))) = None.
Proof.
  split; [left; reflexivity|].
  exact (proj2 (proj2 (proj1 (fixed_reg_binding vcc (Definition_of (mkTemp 3 v1))
           (mkState (mkProgram GFX10 32 4) (Builder_new (mkProgram GFX10 32 4) (Some [])))
           (or_introl eq_refl)) (or_introl eq_refl)))).
Defined.

(* ================================================================== *)
(** * More of the builder: encoders, retargeting, [as_uniform], values *)

Open Scope N_scope.


Lemma N_hi_bits (a k i : N) : a < 2 ^ k -> k <= i -> N.testbit a i = false.
Proof.
  intros H Hi. destruct (N.eq_dec a 0) as [->|Ha]; [reflexivity|].
  apply N.bits_above_log2. apply N.log2_lt_pow2 in H; lia.
Qed.

Lemma lor_shiftl_decode (a b k : N) :
  a < 2 ^ k ->
  N.land (N.lor a (N.shiftl b k)) (N.ones k) = a /\ N.shiftr (N.lor a (N.shiftl b k)) k = b.
Proof.
  intros H. split; apply N.bits_inj; intro i.
  - rewrite N.land_spec, N.lor_spec.
    destruct (N.lt_ge_cases i k).
    + rewrite N.ones_spec_low, N.shiftl_spec_low by lia. rewrite orb_false_r, andb_true_r. reflexivity.
    + rewrite N.ones_spec_high by lia. rewrite andb_false_r, (N_hi_bits a k) by lia. reflexivity.
  - rewrite N.shiftr_spec', N.lor_spec, N.shiftl_spec_high' by lia.
    rewrite (N_hi_bits a k) by lia. simpl. f_equal. lia.
Qed.

(** [a | (b << k)] is [a + b * 2^k] when [a < 2^k]. *)
Lemma lor_shiftl_add (a b k : N) :
  a < 2 ^ k -> N.lor a (N.shiftl b k) = a + b * 2 ^ k.
Proof.
  intros H. destruct (lor_shiftl_decode a b k H) as [H1 H2].
  set (x := N.lor a (N.shiftl b k)) in *.
  rewrite N.land_ones in H1. rewrite N.shiftr_div_pow2 in H2.
  rewrite (N.div_mod x (2 ^ k)) by (apply N.pow_nonzero; discriminate).
  rewrite H1, H2. lia.
Qed.

Lemma N_fields (a b m : N) : a < m -> (a + b * m) mod m = a /\ (a + b * m) / m = b.
Proof.
  intros H. assert (Hm : m <> 0) by lia. split.
  - rewrite N.Div0.mod_add. apply N.mod_small. exact H.
  - rewrite N.div_add by exact Hm. rewrite N.div_small by exact H. reflexivity.
Qed.

Lemma dpp_quad_perm_value (lane0 lane1 lane2 lane3 : N) :
  dpp_quad_perm lane0 lane1 lane2 lane3
  = if (lane0 <? 4) && (lane1 <? 4) && (lane2 <? 4) && (lane3 <? 4)
    then Some (lane0 + lane1 * 4 + lane2 * 16 + lane3 * 64) else None.
Proof.
  unfold dpp_quad_perm.
  destruct (lane0 <? 4) eqn:H0, (lane1 <? 4) eqn:H1, (lane2 <? 4) eqn:H2, (lane3 <? 4) eqn:H3;
    cbn [andb]; try reflexivity. rewrite N.ltb_lt in *.
  rewrite (lor_shiftl_add lane0 lane1 2) by (cbn; lia).
  rewrite (lor_shiftl_add _ lane2 4) by (cbn; lia).
  rewrite (lor_shiftl_add _ lane3 6) by (cbn; lia).
  reflexivity.
Qed.

(** X1: [dpp_quad_perm] accepts exactly the lane selectors below 4; its
    control is below 256 and its four 2-bit fields give back the lanes. *)
Theorem dpp_quad_perm_roundtrip (lane0 lane1 lane2 lane3 : N) :
  match dpp_quad_perm lane0 lane1 lane2 lane3 with
  | None => 4 <= lane0 \/ 4 <= lane1 \/ 4 <= lane2 \/ 4 <= lane3
  | Some r => r < 256 /\
      N.land r 3 = lane0 /\ N.land (N.shiftr r 2) 3 = lane1 /\
      N.land (N.shiftr r 4) 3 = lane2 /\ N.shiftr r 6 = lane3
  end.
Proof.
  unfold dpp_quad_perm.
  destruct (lane0 <? 4) eqn:H0, (lane1 <? 4) eqn:H1, (lane2 <? 4) eqn:H2, (lane3 <? 4) eqn:H3;
    rewrite ?N.ltb_lt, ?N.ltb_ge in *; cbn [andb]; try lia.
  rewrite (lor_shiftl_add lane0 lane1 2) by (cbn; lia).
  rewrite (lor_shiftl_add _ lane2 4) by (cbn; lia).
  rewrite (lor_shiftl_add _ lane3 6) by (cbn; lia).
  change 3 with (N.ones 2). rewrite !N.land_ones, !N.shiftr_div_pow2.
  cbn [N.pow N.mul Pos.pow Pos.mul Pos.iter]. cbn.
  split; [lia|]. split; [|split; [|split]].
  - replace (lane0 + lane1 * 4 + lane2 * 16 + lane3 * 64)
      with (lane0 + (lane1 + lane2 * 4 + lane3 * 16) * 4) by lia.
    apply N_fields. exact H0.
  - replace (lane0 + lane1 * 4 + lane2 * 16 + lane3 * 64)
      with (lane0 + (lane1 + (lane2 + lane3 * 4) * 4) * 4) by lia.
    rewrite (proj2 (N_fields _ _ _ H0)). apply N_fields. exact H1.
  - replace (lane0 + lane1 * 4 + lane2 * 16 + lane3 * 64)
      with ((lane0 + lane1 * 4) + (lane2 + lane3 * 4) * 16) by lia.
    rewrite (proj2 (N_fields (lane0 + lane1 * 4) (lane2 + lane3 * 4) 16 ltac:(lia))). apply N_fields. exact H2.
  - replace (lane0 + lane1 * 4 + lane2 * 16 + lane3 * 64)
      with ((lane0 + lane1 * 4 + lane2 * 16) + lane3 * 64) by lia.
    apply N_fields. lia.
Qed.

Lemma dpp_row_value (base amount : N) :
  N.land base 15 = 0 ->
  (if (0 <? amount) && (amount <? 16) then Some (N.lor base amount) else None)
  = if (0 <? amount) && (amount <? 16) then Some (base + amount) else None.
Proof.
  intros Hb. destruct ((0 <? amount) && (amount <? 16)) eqn:Ha; [|reflexivity].
  apply andb_prop in Ha. destruct Ha as [_ Ha]. apply N.ltb_lt in Ha. f_equal.
  rewrite N.lor_comm.
  assert (Hs : base = N.shiftl (N.shiftr base 4) 4).
  { rewrite N.shiftl_mul_pow2, N.shiftr_div_pow2. change (2 ^ 4) with 16.
    change 15 with (N.ones 4) in Hb. rewrite N.land_ones in Hb. change (2 ^ 4) with 16 in Hb.
    rewrite (N.div_mod base 16) at 1 by discriminate. rewrite Hb. lia. }
  rewrite Hs, lor_shiftl_add by (cbn; lia). rewrite <- N.shiftl_mul_pow2, <- Hs. lia.
Qed.

(** X2: [dpp_row_sl], [dpp_row_sr] and [dpp_row_rr] accept exactly the
    amounts 1 to 15, and encode them as the row base plus the amount. *)
Theorem dpp_row_shift_encoding (amount : N) :
  match dpp_row_sl amount with
  | None => amount = 0 \/ 16 <= amount
  | Some r => 0 < amount < 16 /\ r = _dpp_row_sl + amount
  end /\
  match dpp_row_sr amount with
  | None => amount = 0 \/ 16 <= amount
  | Some r => 0 < amount < 16 /\ r = _dpp_row_sr + amount
  end /\
  match dpp_row_rr amount with
  | None => amount = 0 \/ 16 <= amount
  | Some r => 0 < amount < 16 /\ r = _dpp_row_rr + amount
  end.
Proof.
  unfold dpp_row_sl, dpp_row_sr, dpp_row_rr.
  rewrite !dpp_row_value by reflexivity.
  destruct (0 <? amount) eqn:H0, (amount <? 16) eqn:H1; cbn [andb];
    rewrite ?N.ltb_lt, ?N.ltb_ge in *; (repeat split; lia).
Qed.

(** Every accepted call, and the value it encodes to. *)
Lemma dpp_encode_value (x : dpp_call) (r : N) :
  dpp_encode x = Some r ->
  match x with
  | CallQuadPerm l0 l1 l2 l3 =>
      l0 < 4 /\ l1 < 4 /\ l2 < 4 /\ l3 < 4 /\ r = l0 + l1 * 4 + l2 * 16 + l3 * 64
  | CallRowSl a => 0 < a < 16 /\ r = 256 + a
  | CallRowSr a => 0 < a < 16 /\ r = 272 + a
  | CallRowRr a => 0 < a < 16 /\ r = 288 + a
  end.
Proof.
  destruct x as [l0 l1 l2 l3|a|a|a]; cbn [dpp_encode].
  - rewrite dpp_quad_perm_value.
    destruct (l0 <? 4) eqn:H0, (l1 <? 4) eqn:H1, (l2 <? 4) eqn:H2, (l3 <? 4) eqn:H3;
      cbn [andb]; intros Hr; try discriminate. injection Hr as <-.
    rewrite N.ltb_lt in *. repeat split; assumption.
  - unfold dpp_row_sl. rewrite dpp_row_value by reflexivity.
    destruct (0 <? a) eqn:H0, (a <? 16) eqn:H1; cbn [andb]; intros Hr; try discriminate.
    injection Hr as <-. rewrite N.ltb_lt in *. repeat split; assumption.
  - unfold dpp_row_sr. rewrite dpp_row_value by reflexivity.
    destruct (0 <? a) eqn:H0, (a <? 16) eqn:H1; cbn [andb]; intros Hr; try discriminate.
    injection Hr as <-. rewrite N.ltb_lt in *. repeat split; assumption.
  - unfold dpp_row_rr. rewrite dpp_row_value by reflexivity.
    destruct (0 <? a) eqn:H0, (a <? 16) eqn:H1; cbn [andb]; intros Hr; try discriminate.
    injection Hr as <-. rewrite N.ltb_lt in *. repeat split; assumption.
Qed.

(** X3: no accepted quad-perm or row-shift control equals one of the named
    DPP controls, and two calls that give the same control are the same call
    with the same arguments. *)
Theorem dpp_encode_unambiguous (x y : dpp_call) (r : N) :
  dpp_encode x = Some r ->
  ~ In r dpp_named_ctrls /\ (dpp_encode y = Some r -> x = y).
Proof.
  intros Hx. pose proof (dpp_encode_value x r Hx) as Vx. split.
  - unfold dpp_named_ctrls, dpp_wf_sl1, dpp_wf_rl1, dpp_wf_sr1, dpp_wf_rr1, dpp_row_mirror,
      dpp_row_half_mirror, dpp_row_bcast15, dpp_row_bcast31. cbn [In].
    destruct x; lia.
  - intros Hy. pose proof (dpp_encode_value y r Hy) as Vy.
    destruct x as [l0 l1 l2 l3|a|a|a], y as [m0 m1 m2 m3|b|b|b]; try lia.
    + f_equal; lia.
    + f_equal; lia.
    + f_equal; lia.
    + f_equal; lia.
Qed.

Lemma dpp_encode_unambiguous_witness :
  dpp_encode (CallRowSl 1) = Some 257 /\ ~ In 257 dpp_named_ctrls.
Proof.
  split; [reflexivity|].
  exact (proj1 (dpp_encode_unambiguous (CallRowSl 1) (CallRowSl 1) 257 eq_refl)).
Defined.

(** X4: [ds_pattern_bitmode] accepts exactly masks below 32; its offset is
    below 32768 and its three 5-bit fields give back the and, or and xor
    masks. *)
Theorem ds_pattern_bitmode_roundtrip (and_mask or_mask xor_mask : N) :
  match ds_pattern_bitmode and_mask or_mask xor_mask with
  | None => 32 <= and_mask \/ 32 <= or_mask \/ 32 <= xor_mask
  | Some r => r < 32768 /\ N.land r 31 = and_mask /\ N.land (N.shiftr r 5) 31 = or_mask /\
      N.shiftr r 10 = xor_mask
  end.
Proof.
  unfold ds_pattern_bitmode.
  destruct (and_mask <? 32) eqn:H0, (or_mask <? 32) eqn:H1, (xor_mask <? 32) eqn:H2;
    rewrite ?N.ltb_lt, ?N.ltb_ge in *; cbn [andb]; try lia.
  rewrite (lor_shiftl_add and_mask or_mask 5) by (cbn; lia).
  rewrite (lor_shiftl_add _ xor_mask 10) by (cbn; lia).
  change 31 with (N.ones 5). rewrite !N.land_ones, !N.shiftr_div_pow2.
  cbn [N.pow N.mul Pos.pow Pos.mul Pos.iter]. cbn.
  split; [lia|]. split; [|split].
  - replace (and_mask + or_mask * 32 + xor_mask * 1024)
      with (and_mask + (or_mask + xor_mask * 32) * 32) by lia.
    apply N_fields. exact H0.
  - replace (and_mask + or_mask * 32 + xor_mask * 1024)
      with (and_mask + (or_mask + xor_mask * 32) * 32) by lia.
    rewrite (proj2 (N_fields _ _ _ H0)). apply N_fields. exact H1.
  - replace (and_mask + or_mask * 32 + xor_mask * 1024)
      with ((and_mask + or_mask * 32) + xor_mask * 1024) by lia.
    apply N_fields. lia.
Qed.

Lemma sendmsg_value (id : N) (cut emit : bool) (stream : N) :
  id < 16 -> stream < 4 ->
  let r := N.lor (N.lor (N.lor id (N.shiftl (N.b2n cut) 4)) (N.shiftl (N.b2n emit) 5))
                 (N.shiftl stream 8) in
  N.land r 15 = id /\ N.testbit r 4 = cut /\ N.testbit r 5 = emit /\ N.shiftr r 8 = stream /\
  r < 1024.
Proof.
  intros Hid Hs r.
  assert (Hc : N.b2n cut <= 1) by (destruct cut; cbn; lia).
  assert (He : N.b2n emit <= 1) by (destruct emit; cbn; lia).
  assert (Hr : r = id + N.b2n cut * 16 + N.b2n emit * 32 + stream * 256).
  { unfold r. rewrite (lor_shiftl_add id (N.b2n cut) 4) by (cbn; lia).
    rewrite (lor_shiftl_add _ (N.b2n emit) 5) by (cbn; lia).
    rewrite (lor_shiftl_add _ stream 8) by (cbn; lia). reflexivity. }
  split; [|split; [|split; [|split]]].
  - change 15 with (N.ones 4). rewrite N.land_ones, Hr. change (2 ^ 4) with 16.
    replace (id + N.b2n cut * 16 + N.b2n emit * 32 + stream * 256)
      with (id + (N.b2n cut + N.b2n emit * 2 + stream * 16) * 16) by lia.
    apply N_fields. exact Hid.
  - unfold r. rewrite !N.lor_spec.
    rewrite (N.shiftl_spec_high' (N.b2n cut) 4 4), (N.shiftl_spec_low (N.b2n emit) 5 4),
      (N.shiftl_spec_low stream 8 4) by lia.
    rewrite (N_hi_bits id 4 4) by (cbn; lia). destruct cut; reflexivity.
  - unfold r. rewrite !N.lor_spec.
    rewrite (N.shiftl_spec_high' (N.b2n cut) 4 5), (N.shiftl_spec_high' (N.b2n emit) 5 5),
      (N.shiftl_spec_low stream 8 5) by lia.
    rewrite (N_hi_bits id 4 5) by (cbn; lia).
    destruct cut, emit; reflexivity.
  - rewrite N.shiftr_div_pow2, Hr. change (2 ^ 8) with 256.
    replace (id + N.b2n cut * 16 + N.b2n emit * 32 + stream * 256)
      with ((id + N.b2n cut * 16 + N.b2n emit * 32) + stream * 256) by lia.
    apply N_fields. lia.
  - rewrite Hr. lia.
Qed.

(** X5: [sendmsg_gs] and [sendmsg_gs_done] accept exactly streams below 4;
    the message id sits in the low nibble, [cut] in bit 4, [emit] in bit 5 and
    the stream from bit 8. *)
Theorem sendmsg_gs_fields (cut emit : bool) (stream : N) :
  match sendmsg_gs cut emit stream with
  | None => 4 <= stream
  | Some r => stream < 4 /\ N.land r sendmsg_id_mask = _sendmsg_gs /\
      N.testbit r 4 = cut /\ N.testbit r 5 = emit /\ N.shiftr r 8 = stream
  end /\
  match sendmsg_gs_done cut emit stream with
  | None => 4 <= stream
  | Some r => stream < 4 /\ N.land r sendmsg_id_mask = _sendmsg_gs_done /\
      N.testbit r 4 = cut /\ N.testbit r 5 = emit /\ N.shiftr r 8 = stream
  end.
Proof.
  unfold sendmsg_gs, sendmsg_gs_done.
  destruct (stream <? 4) eqn:Hs; [|rewrite N.ltb_ge in Hs; split; exact Hs].
  rewrite N.ltb_lt in Hs.
  destruct (sendmsg_value _sendmsg_gs cut emit stream eq_refl Hs) as [A [B [C [D _]]]].
  destruct (sendmsg_value _sendmsg_gs_done cut emit stream eq_refl Hs)
    as [A' [B' [C' [D' _]]]].
  split; (split; [exact Hs|]); unfold sendmsg_id_mask; change 0xf with 15; auto.
Qed.

Close Scope N_scope.


Lemma insert_all_null (xs : list Instruction) p lm ui st0 it pr nu :
  insert_all xs (mkState p (mkBuilder lm ui st0 None it pr nu))
  = Some (tt, mkState p (mkBuilder lm ui st0 None it pr nu)).
Proof. induction xs as [|x xs IH]; [reflexivity|]. exact IH. Qed.

Lemma insert_all_append (xs : list Instruction) : forall p lm it pr nu l,
  insert_all xs (mkState p (mkBuilder lm false false (Some l) it pr nu))
  = Some (tt, mkState p (mkBuilder lm false false (Some (l ++ xs)) it pr nu)).
Proof.
  induction xs as [|x xs IH]; intros p lm it pr nu l.
  - rewrite app_nil_r. reflexivity.
  - cbn [insert_all]. erewrite bind_some by reflexivity.
    rewrite IH, <- app_assoc. reflexivity.
Qed.

Lemma insert_all_prepend (xs : list Instruction) : forall p lm it pr nu l,
  insert_all xs (mkState p (mkBuilder lm false true (Some l) it pr nu))
  = Some (tt, mkState p (mkBuilder lm false true (Some (rev xs ++ l)) it pr nu)).
Proof.
  induction xs as [|x xs IH]; intros p lm it pr nu l.
  - reflexivity.
  - cbn [insert_all]. erewrite bind_some by reflexivity.
    rewrite IH. cbn [rev]. rewrite <- app_assoc. reflexivity.
Qed.

(** X6: inserting a sequence drops it without a target vector, appends it in
    order at the end, and puts it in reverse order in front at the start. *)
Theorem insert_all_modes (xs l : list Instruction) p lm ui st0 it pr nu :
  insert_all xs (mkState p (mkBuilder lm ui st0 None it pr nu))
    = Some (tt, mkState p (mkBuilder lm ui st0 None it pr nu)) /\
  insert_all xs (mkState p (mkBuilder lm false false (Some l) it pr nu))
    = Some (tt, mkState p (mkBuilder lm false false (Some (l ++ xs)) it pr nu)) /\
  insert_all xs (mkState p (mkBuilder lm false true (Some l) it pr nu))
    = Some (tt, mkState p (mkBuilder lm false true (Some (rev xs ++ l)) it pr nu)).
Proof.
  split; [apply insert_all_null|]. split; [apply insert_all_append|apply insert_all_prepend].
Qed.

(** X7: after [reset()] the builder inserts nothing; after [reset(instrs)] it
    appends to the end of [instrs]; [moveEnd] keeps the start/end mode. *)
Theorem reset_then_insert (xs l : list Instruction) (s : State) :
  (reset_null ;;; insert_all xs) s
    = Some (tt, mkState (st_prog s) (mkBuilder (b_lm (st_b s)) false false None
                          (b_it (st_b s)) (b_precise (st_b s)) (b_nuw (st_b s)))) /\
  (reset_instrs l ;;; insert_all xs) s
    = Some (tt, mkState (st_prog s) (mkBuilder (b_lm (st_b s)) false false (Some (l ++ xs))
                          (b_it (st_b s)) (b_precise (st_b s)) (b_nuw (st_b s)))) /\
  (b_use_iterator (st_b s) = false ->
   (moveEnd l ;;; insert_all xs) s
     = Some (tt, mkState (st_prog s) (mkBuilder (b_lm (st_b s)) false (b_start (st_b s))
                   (Some (if b_start (st_b s) then rev xs ++ l else l ++ xs))
                   (b_it (st_b s)) (b_precise (st_b s)) (b_nuw (st_b s))))).
Proof.
  destruct s as [p [lm ui st0 ins it pr nu]]. cbn [st_prog st_b b_lm b_use_iterator b_start b_it b_precise b_nuw].
  split; [|split].
  - erewrite bind_some by reflexivity. apply insert_all_null.
  - erewrite bind_some by reflexivity. apply insert_all_append.
  - intros ->. erewrite bind_some by reflexivity.
    destruct st0; [apply insert_all_prepend|apply insert_all_append].
Qed.

Lemma reset_then_insert_witness :
  b_use_iterator (st_b (mkState (mkProgram GFX9 64 0)
    (mkBuilder s2 false true (Some []) 0 false false))) = false /\
  (moveEnd [mkInstr p_parallelcopy [PSEUDO] [] []] ;;;
   insert_all [mkInstr v_add_u32 [VOP2] [] []; mkInstr v_sub_u32 [VOP2] [] []])
    (mkState (mkProgram GFX9 64 0) (mkBuilder s2 false true (Some []) 0 false false))
  = Some (tt, mkState (mkProgram GFX9 64 0)
      (mkBuilder s2 false true
         (Some [mkInstr v_sub_u32 [VOP2] [] []; mkInstr v_add_u32 [VOP2] [] [];
                mkInstr p_parallelcopy [PSEUDO] [] []]) 0 false false)).
Proof.
  split; [reflexivity|].
  exact (proj2 (proj2 (reset_then_insert
    [mkInstr v_add_u32 [VOP2] [] []; mkInstr v_sub_u32 [VOP2] [] []]
    [mkInstr p_parallelcopy [PSEUDO] [] []]
    (mkState (mkProgram GFX9 64 0) (mkBuilder s2 false true (Some []) 0 false false))))
    eq_refl).
Defined.

(** X8: [as_uniform] fails on a non-temporary operand, returns an SGPR
    temporary unchanged without emitting, and turns a VGPR temporary into a
    fresh SGPR temporary of as many dwords with one [p_as_uniform]. *)
Theorem as_uniform_behaviour (t : Temp) (f : option PhysReg) (k : Z) (rc : RegClass)
    (s : State) (c : chip_class) (w : nat) (lm : RegClass) (it : nat) (pr nu : bool)
    (n : nat) (L : list Instruction) :
  as_uniform (OConst k) s = None /\ as_uniform (OUndef rc) s = None /\
  (rc_type (t_rc t) = sgpr -> as_uniform (OTemp t f) s = Some (t, s)) /\
  (rc_type (t_rc t) = vgpr ->
   let u := mkTemp n (mkRC sgpr ((rc_bytes (t_rc t) + 3) / 4) false) in
   as_uniform (OTemp t f) (st c w lm it pr nu n L)
   = Some (u, st c w lm it pr nu (S n)
                 (L ++ [mkInstr p_as_uniform [PSEUDO] [OTemp t f] [flags pr nu (Definition_of u)]]))).
Proof.
  split; [reflexivity|]. split; [reflexivity|]. split.
  - intros Ht. unfold as_uniform. cbn [assert isTemp getTemp]. rewrite Ht. reflexivity.
  - intros Ht. unfold as_uniform. cbn [assert isTemp getTemp]. rewrite Ht. reflexivity.
Qed.

Lemma as_uniform_behaviour_witness :
  rc_type (t_rc (mkTemp 3 v1)) = vgpr /\
  as_uniform (OTemp (mkTemp 3 v1) None) (st GFX10 32 s1 0 false false 7 [])
  = Some (mkTemp 7 s1, st GFX10 32 s1 0 false false 8
            [mkInstr p_as_uniform [PSEUDO] [OTemp (mkTemp 3 v1) None]
               [flags false false (Definition_of (mkTemp 7 s1))]]).
Proof.
  split; [reflexivity|].
  exact (proj2 (proj2 (proj2 (as_uniform_behaviour (mkTemp 3 v1) None 0 s1
           (st GFX10 32 s1 0 false false 7 []) GFX10 32 s1 0 false false 7 []))) eq_refl).
Defined.


Lemma op_val_stable (P : list Instruction) (n : nat) (o : Operand) (e : env) :
  op_below n o -> (forall x, (x < n)%nat -> exec_seq P e x = e x) ->
  op_val (exec_seq P e) o = op_val e o.
Proof. destruct o; cbn; auto. Qed.

Lemma exec_instr_second (i : Instruction) (e : env) (x y : nat) (v0 v1 : Z) (vs : list Z) :
  writes i = [x; y] -> instr_results i e = v0 :: v1 :: vs -> exec_instr i e y = v1.
Proof.
  intros Hw Hv. unfold exec_instr, writes in *. rewrite Hv.
  destruct (definitions i) as [|d1 [|d2 [|d3 ds]]]; try discriminate.
  cbn in Hw |- *. injection Hw as <- <-. unfold upd. rewrite Nat.eqb_refl. reflexivity.
Qed.

Section Values.
Variables (c : chip_class) (w : nat) (lm : RegClass) (it : nat) (pr nu : bool).
Hypothesis Hlm : fixed_rc_ok lm = true.

Lemma copy_prefix_st (cond : bool) (b : Operand) (n : nat) (L : list Instruction) :
  op_below n b ->
  exists b' n' P,
    (if cond then (d <- def v1 ;; r <- copy d b ;; ret (res_op r)) else ret b)
      (st c w lm it pr nu n L) = Some (b', st c w lm it pr nu n' (L ++ P)) /\
    (n <= n')%nat /\ op_below n' b' /\
    (forall e x, (x < n)%nat -> exec_seq P e x = e x) /\
    (forall e, op_val (exec_seq P e) b' = op_val e b) /\
    (cond = true -> b' = Operand_of_temp (mkTemp n v1)) /\
    (cond = false -> b' = b).
Proof.
  intros Hb. destruct cond.
  - rewrite (bind_some _ _ _ _ _ (def_st c w lm it pr nu v1 n L)).
    unfold copy, pseudo. rewrite (bind_some _ _ _ _ _ (create_st c w lm it pr nu _ _ _ _ _ _)).
    do 3 eexists. split; [reflexivity|]. split; [lia|]. split; [cbn; lia|].
    split; [|split; [|split; [reflexivity|discriminate]]].
    + intros e x Hx. cbn. unfold upd. destruct (Nat.eqb_spec x n); [lia|reflexivity].
    + intros e. cbn [op_val res_op res_temp Operand_of_temp definitions map d_temp flags setNUW setPrecise Definition_of].
      unfold exec_seq. cbn [fold_left].
      eapply exec_instr_first; [reflexivity|reflexivity|cbn; tauto].
  - exists b, n, []. rewrite app_nil_r. split; [reflexivity|]. split; [lia|].
    split; [exact Hb|]. split; [reflexivity|]. split; [reflexivity|].
    split; [discriminate|reflexivity].
Qed.


Ltac fin_vop n :=
  match goal with
  | Hval : forall e, op_val (exec_seq ?P e) _ = _,
    Hpres : forall e x, (x < _)%nat -> exec_seq _ e x = e x |- _ =>
    unfold ret; eexists; exists P; eexists; split; [rewrite app_assoc; reflexivity|];
    split; [lia|]; intros e; rewrite !exec_seq_snoc;
    split; [ erewrite exec_instr_first; [| reflexivity | reflexivity | cbn; lia ]
           | split; [ intros x Hx Hxd; rewrite exec_instr_notin by (cbn; lia); apply Hpres; exact Hx
                    | intros dc Hdc; cbn in Hdc;
                      first [ discriminate
                            | injection Hdc as <-;
                              cbn [d_temp setNUW setPrecise setHint Definition_of t_id];
                              split; [lia|];
                              erewrite exec_instr_second; [| reflexivity | reflexivity] ] ]];
    cbn [nth operands]; rewrite Hval;
    repeat rewrite (op_val_stable P n _ e) by (first [assumption | apply Hpres]);
    f_equal; lia
  end.

(** X9: on an end-inserting builder, [vadd32] computes
    [(a + b + carry_in) mod 2^32] into [dst], writes no other older
    temporary, and its carry-out definition gets the carry. *)
Theorem vadd32_value (dst : Definition_) (a b ci : Operand) (co pra : bool)
    (n : nat) (L : list Instruction) :
  (t_id (d_temp dst) < n)%nat -> op_below n a -> op_below n b -> op_below n ci ->
  exists i E n',
    vadd32 dst a b co ci pra (st c w lm it pr nu n L)
      = Some (i, st c w lm it pr nu n' (L ++ E ++ [i])) /\
    (n <= n')%nat /\
    forall e, let cin := if isUndefined ci then 0 else op_val e ci in
      exec_seq (E ++ [i]) e (t_id (d_temp dst)) = u32 (op_val e a + op_val e b + cin) /\
      (forall x, (x < n)%nat -> x <> t_id (d_temp dst) -> exec_seq (E ++ [i]) e x = e x) /\
      (forall dc, nth_error (definitions i) 1 = Some dc ->
         (n <= t_id (d_temp dc) < n')%nat /\
         exec_seq (E ++ [i]) e (t_id (d_temp dc)) = (op_val e a + op_val e b + cin) / 2 ^ 32).
Proof.
  intros Hd Ha Hb Hci. unfold vadd32.
  destruct (negb (isTemp b) || negb (op_type_is b vgpr)) eqn:Hsw; cbv iota beta;
  match goal with |- context [bind (if ?cond then _ else ret ?bb) _ _] =>
    destruct (copy_prefix_st cond bb n L ltac:(assumption))
      as [b' [n1 [P [Hrun [Hn1 [Hb' [Hpres [Hval _]]]]]]]] end;
  rewrite (bind_some _ _ _ _ _ Hrun);
  unfold st; cbn -[exec_seq chip_ge chip_lt fixed_rc_ok u32 Z.div Z.pow];
  destruct (isUndefined ci) eqn:Hu; cbn -[exec_seq chip_ge chip_lt fixed_rc_ok u32 Z.div Z.pow].
  all: repeat match goal with
         | |- context [if chip_ge ?x ?y && ?z then _ else _] => destruct (chip_ge x y && z)
         | |- context [if chip_lt ?x ?y || ?z then _ else _] => destruct (chip_lt x y || z)
         end.
  all: unfold hint_vcc, hint_def; cbn -[exec_seq fixed_rc_ok u32 Z.div Z.pow]; rewrite ?Hlm;
       cbn -[exec_seq fixed_rc_ok u32 Z.div Z.pow].
  all: fin_vop n.
Qed.

(** X10: on an end-inserting builder, [vsub32] computes
    [(a - b - borrow) mod 2^32] into [dst], writes no other older
    temporary, and its carry-out definition gets the borrow. *)
Theorem vsub32_value (dst : Definition_) (a b bi : Operand) (co : bool)
    (n : nat) (L : list Instruction) :
  (t_id (d_temp dst) < n)%nat -> op_below n a -> op_below n b -> op_below n bi ->
  exists i E n',
    vsub32 dst a b co bi (st c w lm it pr nu n L)
      = Some (i, st c w lm it pr nu n' (L ++ E ++ [i])) /\
    (n <= n')%nat /\
    forall e, let bin := if isUndefined bi then 0 else op_val e bi in
      exec_seq (E ++ [i]) e (t_id (d_temp dst)) = u32 (op_val e a - op_val e b - bin) /\
      (forall x, (x < n)%nat -> x <> t_id (d_temp dst) -> exec_seq (E ++ [i]) e x = e x) /\
      (forall dc, nth_error (definitions i) 1 = Some dc ->
         (n <= t_id (d_temp dc) < n')%nat /\
         exec_seq (E ++ [i]) e (t_id (d_temp dc)) = borrow_of (op_val e a - op_val e b - bin)).
Proof.
  intros Hd Ha Hb Hbi. unfold vsub32.
  erewrite bind_some by reflexivity. cbv beta zeta. cbn [st_prog st chip].
  destruct (negb (isTemp b) || negb (op_type_is b vgpr)) eqn:Hsw; cbv iota beta;
  match goal with |- context [bind (if ?cond then _ else ret ?bb) _ _] =>
    destruct (copy_prefix_st cond bb n L ltac:(assumption))
      as [b' [n1 [P [Hrun [Hn1 [Hb' [Hpres [Hval _]]]]]]]] end;
  rewrite (bind_some _ _ _ _ _ Hrun);
  unfold st; cbn -[exec_seq chip_ge chip_lt u32 borrow_of vsub32_encoding].
  all: destruct (isUndefined bi) eqn:Hu; cbn -[exec_seq chip_ge chip_lt u32 borrow_of vsub32_encoding].
  all: repeat match goal with
         | |- context [if chip_lt ?x ?y then _ else _] => destruct (chip_lt x y)
         | |- context [if ?z then _ else _] => is_var z; destruct z
         end.
  all: unfold vsub32_encoding; cbn -[exec_seq chip_ge u32 borrow_of].
  all: repeat match goal with
         | |- context [chip_ge ?x ?y && ?z] => destruct (chip_ge x y)
         end.
  all: cbn -[exec_seq u32 borrow_of].
  all: fin_vop n.
Qed.
End Values.

Lemma vadd32_value_witness :
  fixed_rc_ok s2 = true /\ (1 < 5)%nat /\
  exists i E n',
    vadd32 (Definition_of (mkTemp 1 v1)) (OTemp (mkTemp 2 v1) None) (OTemp (mkTemp 3 v1) None)
      false undef_s2 false (st GFX9 64 s2 0 false false 5 [])
    = Some (i, st GFX9 64 s2 0 false false n' ([] ++ E ++ [i])) /\
    forall e : env, exec_seq (E ++ [i]) e 1%nat = u32 (e 2%nat + e 3%nat).
Proof.
  split; [reflexivity|]. split; [lia|].
  destruct (vadd32_value GFX9 64 s2 0 false false eq_refl (Definition_of (mkTemp 1 v1))
              (OTemp (mkTemp 2 v1) None) (OTemp (mkTemp 3 v1) None) undef_s2 false false 5 []
              ltac:(cbn; lia) ltac:(cbn; lia) ltac:(cbn; lia) I)
    as [i [E [n' [H1 [_ H3]]]]].
  exists i, E, n'. split; [exact H1|]. intros e. destruct (H3 e) as [Hv _].
  cbn -[exec_seq u32] in Hv. rewrite Hv. f_equal. lia.
Defined.

Lemma vsub32_value_witness :
  (1 < 5)%nat /\
  exists i E n',
    vsub32 (Definition_of (mkTemp 1 v1)) (OTemp (mkTemp 2 v1) None) (OTemp (mkTemp 3 v1) None)
      false undef_s2 (st GFX9 64 s2 0 false false 5 [])
    = Some (i, st GFX9 64 s2 0 false false n' ([] ++ E ++ [i])) /\
    forall e : env, exec_seq (E ++ [i]) e 1%nat = u32 (e 2%nat - e 3%nat).
Proof.
  split; [lia|].
  destruct (vsub32_value GFX9 64 s2 0 false false (Definition_of (mkTemp 1 v1))
              (OTemp (mkTemp 2 v1) None) (OTemp (mkTemp 3 v1) None) undef_s2 false 5 []
              ltac:(cbn; lia) ltac:(cbn; lia) ltac:(cbn; lia) I)
    as [i [E [n' [H1 [_ H3]]]]].
  exists i, E, n'. split; [exact H1|]. intros e. destruct (H3 e) as [Hv _].
  cbn -[exec_seq u32] in Hv. rewrite Hv. f_equal. lia.
Defined.


Lemma copy_prefix_result (cond : bool) (b : Operand) s :
  exists b' s',
    (if cond then (d <- def v1 ;; r <- copy d b ;; ret (res_op r)) else ret b) s
      = Some (b', s') /\ same_target s s' /\
    (cond = true -> b' = Operand_of_temp (mkTemp (alloc_id (st_prog s)) v1)) /\
    (cond = false -> b' = b).
Proof.
  destruct cond.
  - rewrite (bind_some _ _ _ _ _ (def_some v1 s)).
    edestruct create_some as [s' [Hc Hs]]. unfold copy, pseudo.
    rewrite (bind_some _ _ _ _ _ Hc). do 2 eexists. split; [reflexivity|].
    split; [exact Hs|]. split; [reflexivity|discriminate].
  - exists b, s. split; [reflexivity|]. split; [split; reflexivity|].
    split; [discriminate|reflexivity].
Qed.




(** X12: without a carry-in, [vadd32] emits [v_add_u32] from GFX9 without
    carry-out, [v_add_co_u32_e64] with a lane-mask carry-out from GFX10, and
    [v_add_co_u32] with its carry-out in VCC otherwise. *)
Theorem vadd32_opcode_choice (dst : Definition_) (a b ci : Operand) (co pra : bool) (s : State) :
  isUndefined ci = true -> fixed_rc_ok (b_lm (st_b s)) = true ->
  exists i s', vadd32 dst a b co ci pra s = Some (i, s') /\
    let c := chip (st_prog s) in
    (chip_ge c GFX9 = true -> co = false ->
       opcode i = v_add_u32 /\ format i = [VOP2] /\ length (definitions i) = 1%nat) /\
    (chip_ge c GFX10 = true -> co = true ->
       opcode i = v_add_co_u32_e64 /\ format i = [VOP3] /\ length (definitions i) = 2%nat /\
       forall dc, nth_error (definitions i) 1 = Some dc ->
         d_hint dc = None /\ d_regClass dc = b_lm (st_b s)) /\
    (chip_lt c GFX10 = true -> chip_lt c GFX9 = true \/ co = true ->
       opcode i = v_add_co_u32 /\ format i = [VOP2] /\ length (definitions i) = 2%nat /\
       forall dc, nth_error (definitions i) 1 = Some dc ->
         d_hint dc = Some vcc /\ d_regClass dc = b_lm (st_b s)).
Proof.
  intros Hu Hlm. unfold vadd32.
  destruct (if negb (isTemp b) || negb (op_type_is b vgpr) then (b, a) else (a, b)) as [a' b'].
  match goal with |- context [bind (if ?cond then _ else ret ?bb) _ s] =>
    destruct (copy_prefix_result cond bb s) as [b'' [s1 [Hc [[Hc1 Hl1] _]]]] end.
  rewrite (bind_some _ _ _ _ _ Hc).
  rewrite (bind_some _ _ _ _ _ (eq_refl : get_prog s1 = Some (st_prog s1, s1))).
  rewrite (bind_some _ _ _ _ _ (eq_refl : get_builder s1 = Some (st_b s1, s1))).
  cbv beta zeta. rewrite Hu. cbn [negb]. rewrite Hc1.
  destruct (chip (st_prog s)) eqn:Hchip; destruct co;
    cbn [chip_ge chip_lt chip_rank Nat.leb negb andb orb];
    try rewrite (bind_some _ _ _ _ _ (def_some _ s1));
    unfold hint_vcc, hint_def; cbn [constrained];
    unfold d_regClass; cbn [Definition_of d_temp t_rc]; rewrite ?Hl1, ?Hlm;
    try (erewrite bind_some by reflexivity);
    edestruct create_some as [s2 [Hi _]]; unfold vop2, vop3; rewrite Hi;
    do 2 eexists; (split; [reflexivity|]);
    cbn [chip_ge chip_lt chip_rank Nat.leb negb andb orb];
    (split; [|split]); intros; try discriminate;
    try (match goal with H : _ \/ _ |- _ => destruct H as [H|H]; discriminate H end);
    (repeat split);
    match goal with
    | H : nth_error _ 1 = Some _ |- _ => cbn in H; injection H as <-; reflexivity
    | _ => idtac
    end.
Qed.

Lemma vadd32_opcode_choice_witness :
  isUndefined undef_s2 = true /\
  fixed_rc_ok (b_lm (st_b (st GFX9 64 s2 0 false false 5 []))) = true /\
  exists i s',
    vadd32 (Definition_of (mkTemp 1 v1)) (OTemp (mkTemp 2 v1) None) (OTemp (mkTemp 3 v1) None)
      false undef_s2 false (st GFX9 64 s2 0 false false 5 []) = Some (i, s') /\
    opcode i = v_add_u32.
Proof.
  split; [reflexivity|]. split; [reflexivity|].
  destruct (vadd32_opcode_choice (Definition_of (mkTemp 1 v1)) (OTemp (mkTemp 2 v1) None)
              (OTemp (mkTemp 3 v1) None) undef_s2 false false (st GFX9 64 s2 0 false false 5 [])
              eq_refl eq_refl) as [i [s' [H1 [H2 _]]]].
  exists i, s'. split; [exact H1|]. exact (proj1 (H2 eq_refl eq_refl)).
Defined.


(** X13: [v_mul24_imm] emits one instruction writing [dst]: a copy or shift
    computing [v * imm mod 2^32] when [imm] is 0 or a power of two, and
    otherwise a 24-bit multiply of the low 24 bits of [imm] and [v], which is
    [v * imm] when both are below [2^24]. *)
Theorem v_mul24_imm_value (c : chip_class) (w n : nat) (dst : Definition_) (t : Temp)
    (imm v : Z) (e0 : env) :
  rc_type (t_rc t) = vgpr -> 0 <= imm < 2 ^ 32 -> 0 <= v < 2 ^ 32 -> e0 (t_id t) = v ->
  exists i s',
    run_end (v_mul24_imm dst t imm) (mkProgram c w n) = Some (Some i, s') /\
    b_instructions (st_b s') = Some [i] /\
    writes i = [t_id (d_temp dst)] /\
    exec_instr i e0 (t_id (d_temp dst))
      = (if util_is_power_of_two_or_zero imm then u32 (v * imm)
         else u32 (Z.land imm 16777215 * Z.land v 16777215)) /\
    (imm < 2 ^ 24 -> 0 <= v < 2 ^ 24 -> exec_instr i e0 (t_id (d_temp dst)) = u32 (v * imm)).
Proof.
  intros Ht Himm Hv32 He0.
  assert (Hval : exists i s',
    run_end (v_mul24_imm dst t imm) (mkProgram c w n) = Some (Some i, s') /\
    b_instructions (st_b s') = Some [i] /\
    writes i = [t_id (d_temp dst)] /\
    exec_instr i e0 (t_id (d_temp dst))
      = (if util_is_power_of_two_or_zero imm then u32 (v * imm)
         else u32 (Z.land imm 16777215 * Z.land v 16777215))).
  { rewrite run_end_st. set (lm := lane_mask (mkProgram c w n)).
    assert (Hrt : RegType_eqb (rc_type (t_rc t)) vgpr = true) by (rewrite Ht; reflexivity).
    unfold v_mul24_imm, v_mul_imm. unfold bind at 1. unfold assert. rewrite Hrt. unfold ret at 1.
    unfold bind at 1. unfold get_prog at 1. cbv beta iota.
    destruct (Z.eqb_spec imm 0) as [->|H0].
    { do 2 eexists. split; [reflexivity|]. split; [reflexivity|]. split; [reflexivity|].
      cbn -[exec_instr u32]. rewrite Z.mul_0_r.
      erewrite exec_instr_first; [reflexivity|reflexivity|reflexivity|simpl; tauto]. }
    destruct (Z.eqb_spec imm 1) as [->|H1].
    { do 2 eexists. split; [reflexivity|]. split; [reflexivity|]. split; [reflexivity|].
      cbn -[exec_instr u32]. rewrite Z.mul_1_r, u32_small by lia.
      erewrite exec_instr_first; [|reflexivity|reflexivity|simpl; tauto].
      cbn. rewrite He0. reflexivity. }
    destruct (util_is_power_of_two_or_zero imm) eqn:Hp2.
    { apply Z.eqb_eq in Hp2. destruct (pow2_test_ffs imm ltac:(lia) Hp2) as [Hk Hpow].
      destruct (shl_st c w lm 0 false false dst (ffs imm - 1) t n [])
        as [i1 [Hi1 [Hop1 [Hw1 [Hr1 He1]]]]].
      rewrite (bind_some _ _ _ _ _ Hi1).
      do 2 eexists. split; [reflexivity|]. split; [reflexivity|]. split; [exact Hw1|].
      rewrite He1, He0, u32_shl, <- Hpow by exact Hk. reflexivity. }
    do 2 eexists. split; [reflexivity|]. split; [reflexivity|]. split; [reflexivity|].
    erewrite exec_instr_first; [|reflexivity|reflexivity|simpl; tauto].
    cbn. rewrite He0. reflexivity. }
  destruct Hval as [i [s' [Hr [Hb [Hw He]]]]].
  exists i, s'. do 3 (split; [assumption|]). split; [exact He|].
  intros Hi Hv. rewrite He. destruct (util_is_power_of_two_or_zero imm); [reflexivity|].
  rewrite !(Z.land_ones _ 24) by lia. rewrite !Z.mod_small by lia.
  f_equal. ring.
Qed.

Lemma v_mul24_imm_value_witness :
  rc_type (t_rc (mkTemp 2 v1)) = vgpr /\
  exists i s',
    run_end (v_mul24_imm (Definition_of (mkTemp 1 v1)) (mkTemp 2 v1) 10) (mkProgram GFX9 64 3)
      = Some (Some i, s') /\
    exec_instr i (fun _ => 5) 1%nat = 50.
Proof.
  split; [reflexivity|].
  destruct (v_mul24_imm_value GFX9 64 3 (Definition_of (mkTemp 1 v1)) (mkTemp 2 v1) 10 5
              (fun _ => 5) eq_refl ltac:(lia) ltac:(lia) eq_refl)
    as [i [s' [H1 [_ [_ [H4 _]]]]]].
  exists i, s'. split; [exact H1|]. cbn -[exec_instr] in H4. rewrite H4. reflexivity.
Defined.
